(** * loopbackx: a virtual disk made of a chain of backing files

    A shallow embedding of [grub-core/disk/loopbackx.c]: the device list with
    its create and delete command, the size aggregation of [open] and the
    chain walk of [read], followed by the properties of the specification
    that were checked against them. *)

From Stdlib Require Import ZArith Lia Bool Sorted.
From Stdlib Require Import Strings.String Strings.Byte.
From stdpp Require Import base list strings gmultiset.

Local Open Scope Z_scope.

(** ** Machine integers *)

(** A value stored in an unsigned integer of [bits] bits. *)
Definition wrap (bits x : Z) : Z := x mod 2 ^ bits.

(** [grub_off_t], [grub_disk_addr_t] and [grub_uint64_t] are 64 bits wide. *)
Definition to_u64 (x : Z) : Z := wrap 64 x.

(** [#define MAXCHAINFILES 4] *)
Definition MAXCHAINFILES : Z := 4.

(** Modelled from the spec: the unknown-length sentinel of the file layer
    ([GRUB_FILE_SIZE_UNKNOWN] of grub/file.h, which is not part of the
    sources): the all-ones 64-bit value. *)
Definition GRUB_FILE_SIZE_UNKNOWN : Z := 2 ^ 64 - 1.

(** Modelled from the spec: the unknown-size sentinel of the disk layer
    ([GRUB_DISK_SIZE_UNKNOWN] of grub/disk.h, which is not part of the
    sources): the all-ones 64-bit value. *)
Definition GRUB_DISK_SIZE_UNKNOWN : Z := 2 ^ 64 - 1.

(** ** Errors *)

(** The members of [grub_err_t] that the module and its file layer use. *)
Inductive grub_err_t : Set :=
| GRUB_ERR_NONE
| GRUB_ERR_OUT_OF_MEMORY
| GRUB_ERR_FILE_NOT_FOUND
| GRUB_ERR_FILE_READ_ERROR
| GRUB_ERR_OUT_OF_RANGE
| GRUB_ERR_UNKNOWN_DEVICE
| GRUB_ERR_BAD_DEVICE
| GRUB_ERR_READ_ERROR
| GRUB_ERR_BAD_ARGUMENT
| GRUB_ERR_NOT_IMPLEMENTED_YET.

#[global] Instance grub_err_t_eq_dec : EqDecision grub_err_t.
Proof. solve_decision. Defined.

(** The global error state: [grub_errno] and the message of [grub_error]. *)
Record grub_error_state : Type := mk_error {
  grub_errno : grub_err_t;
  grub_errmsg : string
}.

Definition no_error : grub_error_state := mk_error GRUB_ERR_NONE "".

(** ** The file layer *)

(** An open file, [struct grub_file]: the fields the module reads
    ([size]), the read position, and what the layer below delivers. *)
Record grub_file : Type := mk_file {
  file_fd : nat;                           (* identity of the handle *)
  file_size : Z;                           (* file->size, a grub_off_t *)
  file_offset : Z;                         (* file->offset *)
  file_data : list byte;                   (* the bytes of the file *)
  file_fault : option grub_error_state     (* the I/O error of a read, if any *)
}.

(** What [grub_file_open] finds under a path. *)
Record file_image : Type := mk_image {
  img_size : Z;
  img_data : list byte;
  img_fault : option grub_error_state
}.

Definition file_system : Type := string -> grub_error_state + file_image.

(** ** The device list *)

(** [struct grub_loopbackx]; [next] is the tail of the list that holds the
    device, [files] is the used part [files[0 .. nfiles-1]] of the array. *)
Record grub_loopbackx : Type := mk_loopbackx {
  devname : string;
  files : list grub_file;
  id : Z
}.

Definition nfiles (dev : grub_loopbackx) : Z := Z.of_nat (length (files dev)).

(** The module's globals ([loopback_list], [last_id]), [grub_errno], and the
    handles the file layer has open. *)
Record grub_state : Type := mk_state {
  loopback_list : list grub_loopbackx;
  last_id : Z;
  grub_err : grub_error_state;
  next_fd : nat;
  open_fds : gmultiset nat
}.

Definition initial_state : grub_state := mk_state [] 0 no_error 0%nat ∅.

Definition set_err (e : grub_error_state) (st : grub_state) : grub_state :=
  mk_state (loopback_list st) (last_id st) e (next_fd st) (open_fds st).

(** [grub_error (n, msg)]: records the error and returns [n]. *)
Definition grub_error (n : grub_err_t) (msg : string) (st : grub_state)
  : grub_err_t * grub_state :=
  (n, set_err (mk_error n msg) st).

(** Modelled from the spec: [open(path, flags) -> FileHandle | Error] of the
    file layer ([grub_file_open] of kern/file.c, which is not part of the
    sources).  A failure leaves its error in [grub_errno] and returns no
    handle; a success returns a fresh handle at offset 0 and records it as
    open. *)
Definition grub_file_open (fs : file_system) (path : string) (st : grub_state)
  : option grub_file * grub_state :=
  match fs path with
  | inl e => (None, set_err e st)
  | inr img =>
      (Some (mk_file (next_fd st) (img_size img) 0 (img_data img) (img_fault img)),
       mk_state (loopback_list st) (last_id st) (grub_err st)
                (S (next_fd st)) (open_fds st ⊎ {[+ next_fd st +]}))
  end.

(** Modelled from the spec: [close(handle)] of the file layer
    ([grub_file_close]): the handle is no longer open. *)
Definition grub_file_close (file : grub_file) (st : grub_state) : grub_state :=
  mk_state (loopback_list st) (last_id st) (grub_err st)
           (next_fd st) (open_fds st ∖ {[+ file_fd file +]}).

(** What the command cannot see in advance: the files behind the paths and
    whether the two allocations of a create succeed. *)
Record cmd_env : Type := mk_env {
  env_fs : file_system;
  env_malloc_ok : bool;
  env_strdup_ok : bool
}.

(** Modelled from the spec: an allocation ([grub_malloc], [grub_strdup] of
    kern/mm.c and kern/misc.c, which are not part of the sources) that fails
    leaves [GRUB_ERR_OUT_OF_MEMORY] in [grub_errno]. *)
Definition out_of_memory (st : grub_state) : grub_state :=
  set_err (mk_error GRUB_ERR_OUT_OF_MEMORY "out of memory") st.

(** The search loops of [delete_loopbackx], [grub_cmd_loopbackx] and
    [grub_loopbackx_open]: the first device called [name]. *)
Fixpoint find_device (name : string) (l : list grub_loopbackx)
  : option grub_loopbackx :=
  match l with
  | [] => None
  | dev :: next =>
      if String.eqb (devname dev) name then Some dev else find_device name next
  end.

(** [*prev = dev->next] for the first device called [name]. *)
Fixpoint unlink_device (name : string) (l : list grub_loopbackx)
  : list grub_loopbackx :=
  match l with
  | [] => []
  | dev :: next =>
      if String.eqb (devname dev) name then next
      else dev :: unlink_device name next
  end.

(** [while (dev->nfiles > 0) grub_file_close (dev->files[--dev->nfiles]);] *)
Definition close_descending (fl : list grub_file) (st : grub_state) : grub_state :=
  fold_left (fun s f => grub_file_close f s) (rev fl) st.

(** [for (i = 0; i < nfiles; i++) grub_file_close (files[i]);] *)
Definition close_ascending (fl : list grub_file) (st : grub_state) : grub_state :=
  fold_left (fun s f => grub_file_close f s) fl st.

(** [delete_loopbackx (name)] *)
Definition delete_loopbackx (name : string) (st : grub_state)
  : grub_err_t * grub_state :=
  match find_device name (loopback_list st) with
  | None => grub_error GRUB_ERR_BAD_DEVICE "device not found" st
  | Some dev =>
      let st1 := mk_state (unlink_device name (loopback_list st)) (last_id st)
                          (grub_err st) (next_fd st) (open_fds st) in
      (GRUB_ERR_NONE, close_descending (files dev) st1)
  end.

(** The loop that opens [args[1 .. argc-1]]: [false] when an open failed
    (the [goto fail]); the handles opened so far are in [opened]. *)
Fixpoint open_chain (fs : file_system) (paths : list string)
    (opened : list grub_file) (st : grub_state)
  : bool * list grub_file * grub_state :=
  match paths with
  | [] => (true, opened, st)
  | path :: rest =>
      match grub_file_open fs path st with
      | (None, st1) => (false, opened, st1)
      | (Some file, st1) => open_chain fs rest (opened ++ [file]) st1
      end
  end.

(** The [fail:] label: [ret = grub_errno], close what was opened. *)
Definition create_fail (opened : list grub_file) (st : grub_state)
  : grub_err_t * grub_state :=
  (grub_errno (grub_err st), close_ascending opened st).

Section Command.

(** The width of [unsigned long], the type of [last_id] and of [id]. *)
Variable long_bits : Z.

(** [grub_cmd_loopbackx (ctxt, argc, args)], with [delete_set] for
    [state[0].set]. *)
Definition grub_cmd_loopbackx (env : cmd_env) (delete_set : bool)
    (args : list string) (st : grub_state) : grub_err_t * grub_state :=
  let argc := Z.of_nat (length args) in
  if argc <? 1 then
    grub_error GRUB_ERR_BAD_ARGUMENT "device name required" st
  else
    let name := hd ""%string args in
    if delete_set then delete_loopbackx name st
    else if argc <? 2 then
      grub_error GRUB_ERR_BAD_ARGUMENT "filename expected" st
    else if argc >? MAXCHAINFILES + 1 then
      grub_error GRUB_ERR_BAD_ARGUMENT "too many filenames expected" st
    else
      match find_device name (loopback_list st) with
      | Some _ =>
          grub_error GRUB_ERR_BAD_ARGUMENT "device name already exists" st
      | None =>
          match open_chain (env_fs env) (tl args) [] st with
          | (false, opened, st1) => create_fail opened st1
          | (true, opened, st1) =>
              if negb (env_malloc_ok env) then
                create_fail opened (out_of_memory st1)
              else if negb (env_strdup_ok env) then
                create_fail opened (out_of_memory st1)
              else
                let newdev := mk_loopbackx name opened (last_id st1) in
                (GRUB_ERR_NONE,
                 mk_state (newdev :: loopback_list st1)
                          (wrap long_bits (last_id st1 + 1))
                          (grub_err st1) (next_fd st1) (open_fds st1))
          end
      end.

(** One invocation of the command. *)
Record call : Type := mk_call {
  call_env : cmd_env;
  call_delete : bool;
  call_args : list string
}.

Definition run_call (c : call) (st : grub_state) : grub_err_t * grub_state :=
  grub_cmd_loopbackx (call_env c) (call_delete c) (call_args c) st.

(** The device a step put at the head of the list, if the list grew. *)
Definition created_by (st st' : grub_state) : option grub_loopbackx :=
  match loopback_list st' with
  | dev :: next =>
      if (length next =? length (loopback_list st))%nat then Some dev else None
  | [] => None
  end.

(** The ids of the devices a sequence of invocations creates, in creation
    order. *)
Fixpoint created_ids (calls : list call) (st : grub_state) : list Z :=
  match calls with
  | [] => []
  | c :: rest =>
      let st' := snd (run_call c st) in
      match created_by st st' with
      | Some dev => id dev :: created_ids rest st'
      | None => created_ids rest st'
      end
  end.

End Command.

(** ** The disk adapter *)

(** The fields of [struct grub_disk] that [grub_loopbackx_open] sets. *)
Record grub_disk : Type := mk_disk {
  total_sectors : Z;
  max_agglomerate : Z;
  disk_id : Z;
  disk_data : option grub_loopbackx
}.

(** Memory as the caller of [read] sees it: a byte at every address.
    Addresses are integers without a width, so the model follows the
    machine for the calls whose stores stay within the address space. *)
Definition memory : Type := Z -> byte.

(** The bytes [bytes] stored from address [addr] on. *)
Definition mem_write (m : memory) (addr : Z) (bytes : list byte) : memory :=
  fun a =>
    if (addr <=? a) && (a <? addr + Z.of_nat (length bytes))
    then nth (Z.to_nat (a - addr)) bytes x00
    else m a.

(** [grub_memset (addr, c, n)], for [n] bytes that lie within the address
    space.  A fill whose count has wrapped around, of nearly
    [2 ^ size_bits] bytes, runs over the end of the address space on the
    machine, which the model does not show: it clears the addresses from
    [addr] on. *)
Definition grub_memset (m : memory) (addr : Z) (c : byte) (n : Z) : memory :=
  fun a => if (addr <=? a) && (a <? addr + n) then c else m a.

(** The [n] bytes found from address [buf] on. *)
Definition delivered (m : memory) (buf : Z) (n : nat) : list byte :=
  map (fun k => m (buf + Z.of_nat k)) (seq 0 n).

(** Modelled from the spec: [seek(handle, offset)] of the file layer
    ([grub_file_seek] of kern/file.c, which is not part of the sources): the
    next read starts at [offset]. *)
Definition grub_file_seek (file : grub_file) (offset : Z) : grub_file :=
  mk_file (file_fd file) (file_size file) offset (file_data file)
          (file_fault file).

(** Modelled from the spec: [read(handle, buffer, length) -> bytes_read |
    Error] of the file layer ([grub_file_read] of kern/file.c, which is not
    part of the sources).  A failing read leaves its error in [grub_errno]
    and stores nothing; otherwise the bytes of the file from the current
    offset on, at most [len] of them, are stored at [buf] and the offset
    moves past them.  The module ignores the returned count. *)
Definition grub_file_read (file : grub_file) (m : memory) (buf len : Z)
    (err : grub_error_state) : grub_file * memory * grub_error_state :=
  match file_fault file with
  | Some e => (file, m, e)
  | None =>
      let bytes := firstn (Z.to_nat len)
                     (skipn (Z.to_nat (file_offset file)) (file_data file)) in
      (mk_file (file_fd file) (file_size file)
               (file_offset file + Z.of_nat (length bytes))
               (file_data file) (file_fault file),
       mem_write m buf bytes, err)
  end.

(** The locals of [grub_loopbackx_read] during the chain walk, with the
    memory and the error state. *)
Record read_state : Type := mk_read {
  rd_buf : Z;
  rd_total : Z;
  rd_spos : Z;
  rd_mem : memory;
  rd_err : grub_error_state
}.

(** What a [read] leaves behind. *)
Record read_result : Type := mk_result {
  rr_ret : grub_err_t;
  rr_files : list grub_file;
  rr_mem : memory;
  rr_err : grub_error_state
}.

Section Disk.

(** The width of [grub_size_t]. *)
Variable size_bits : Z.

(** [GRUB_DISK_SECTOR_BITS] and [GRUB_DISK_CACHE_BITS] of grub/disk.h. *)
Variable GRUB_DISK_SECTOR_BITS : Z.
Variable GRUB_DISK_CACHE_BITS : Z.

Definition GRUB_DISK_SECTOR_SIZE : Z := Z.shiftl 1 GRUB_DISK_SECTOR_BITS.

(** Conversion to [grub_size_t]. *)
Definition to_size (x : Z) : Z := wrap size_bits x.

(** The loop of [grub_loopbackx_open] over [files[0 .. nfiles-1]]: the pair
    of [disk->total_sectors] and [alldata] when it ends. *)
Fixpoint size_walk (fl : list grub_file) (sectors alldata : Z) : Z * Z :=
  match fl with
  | [] => (sectors, alldata)
  | file :: rest =>
      if file_size file =? GRUB_FILE_SIZE_UNKNOWN
      then (GRUB_DISK_SIZE_UNKNOWN, alldata)
      else size_walk rest sectors (to_size (to_u64 (alldata + file_size file)))
  end.

(** [grub_loopbackx_open (name, disk)] *)
Definition grub_loopbackx_open (name : string) (disk : grub_disk)
    (st : grub_state) : grub_err_t * grub_disk * grub_state :=
  match find_device name (loopback_list st) with
  | None =>
      let (e, st') := grub_error GRUB_ERR_UNKNOWN_DEVICE "can't open device" st in
      (e, disk, st')
  | Some dev =>
      let (sectors, alldata) := size_walk (files dev) 0 0 in
      let sectors' :=
        if negb (sectors =? GRUB_DISK_SIZE_UNKNOWN)
        then to_size (alldata + GRUB_DISK_SECTOR_SIZE - 1) / GRUB_DISK_SECTOR_SIZE
        else sectors in
      (GRUB_ERR_NONE,
       mk_disk sectors'
               (Z.shiftl 1 (29 - GRUB_DISK_SECTOR_BITS - GRUB_DISK_CACHE_BITS))
               (id dev) (Some dev),
       st)
  end.

(** The number of bytes [n] that the walk asks of a file it reads. *)
Definition read_count (file : grub_file) (s : read_state) : Z :=
  let epos := to_u64 (rd_spos s + file_size file) in
  if epos >? file_size file
  then to_size (to_u64 (file_size file - rd_spos s))
  else rd_total s.

(** The [for] loop of [grub_loopbackx_read] over [files[i .. nfiles-1]]. *)
Fixpoint chain_walk (fl : list grub_file) (s : read_state)
  : list grub_file * read_state :=
  match fl with
  | [] => ([], s)
  | file :: rest =>
      if rd_total s =? 0 then (fl, s)
      else if rd_spos s <? file_size file then
        let n := read_count file s in
        let '(file', m, e) :=
          grub_file_read (grub_file_seek file (rd_spos s))
                         (rd_mem s) (rd_buf s) n (rd_err s) in
        let (rest', s') :=
          chain_walk rest
            (mk_read (rd_buf s + n) (to_size (rd_total s - n)) 0 m e) in
        (file' :: rest', s')
      else
        let (rest', s') :=
          chain_walk rest
            (mk_read (rd_buf s) (rd_total s)
                     (to_size (to_u64 (rd_spos s - file_size file)))
                     (rd_mem s) (rd_err s)) in
        (file :: rest', s')
  end.

(** [grub_loopbackx_read (disk, sector, size, buf)], with [dev] for
    [disk->data]; [m] and [err] are the memory and the error state at the
    call. *)
Definition grub_loopbackx_read (dev : grub_loopbackx) (sector size buf : Z)
    (m : memory) (err : grub_error_state) : read_result :=
  let spos := to_size (to_u64 (Z.shiftl sector GRUB_DISK_SECTOR_BITS)) in
  let total := to_size (Z.shiftl size GRUB_DISK_SECTOR_BITS) in
  let (fl, s) := chain_walk (files dev) (mk_read buf total spos m err) in
  if decide (grub_errno (rd_err s) = GRUB_ERR_NONE) then
    mk_result GRUB_ERR_NONE fl
      (if rd_total s >? 0
       then grub_memset (rd_mem s) (rd_buf s) x00 (rd_total s)
       else rd_mem s)
      (rd_err s)
  else
    mk_result (grub_errno (rd_err s)) fl (rd_mem s) (rd_err s).

End Disk.

(** ** Handles *)

(** The handles of a list of files, as a multiset. *)
Definition fds (fl : list grub_file) : gmultiset nat :=
  list_to_set_disj (map file_fd fl).

Arguments fds : simpl never.

(** ** The logical disk of the specification *)

(** The concatenation of the backing files, in chain order. *)
Definition logical_disk (fl : list grub_file) : list byte :=
  concat (map file_data fl).

(** The bytes [[off, off + n)] of a byte sequence. *)
Definition byte_range (l : list byte) (off n : nat) : list byte :=
  firstn n (skipn off l).

(** The sum of the lengths of a chain. *)
Definition chain_length (fl : list grub_file) : Z :=
  fold_right (fun f acc => file_size f + acc) 0 fl.

Arguments chain_length : simpl never.

(** A file of known length: its [size] is a [grub_off_t] other than the
    sentinel. *)
Definition size_known (file : grub_file) : Prop :=
  0 <= file_size file < GRUB_FILE_SIZE_UNKNOWN.

(** A file that holds as many bytes as its [size] says and whose reads do
    not fail. *)
Definition sound_file (file : grub_file) : Prop :=
  file_size file = Z.of_nat (length (file_data file)) /\
  file_fault file = None.

(** A file whose reads fail with an error other than [GRUB_ERR_NONE], if
    they fail. *)
Definition fault_is_error (f : grub_file) : Prop :=
  forall e, file_fault f = Some e -> grub_errno e <> GRUB_ERR_NONE.

(** ** Sample data for the examples *)

Definition file_not_found : grub_error_state :=
  mk_error GRUB_ERR_FILE_NOT_FOUND "file not found".

Definition read_failure : grub_error_state :=
  mk_error GRUB_ERR_READ_ERROR "failure reading sector".

(** Ten and twenty bytes, all different. *)
Definition ten_bytes : list byte :=
  [x30; x31; x32; x33; x34; x35; x36; x37; x38; x39].

Definition twenty_bytes : list byte :=
  [x41; x42; x43; x44; x45; x46; x47; x48; x49; x4a;
   x4b; x4c; x4d; x4e; x4f; x50; x51; x52; x53; x54].

(** A file system with the two files [a.img] and [b.img] and nothing else. *)
Definition sample_fs : file_system := fun path =>
  if String.eqb path "a.img" then inr (mk_image 10 ten_bytes None)
  else if String.eqb path "b.img" then inr (mk_image 20 twenty_bytes None)
  else inl file_not_found.

Definition sample_env : cmd_env := mk_env sample_fs true true.

(** The state after [loopbackx loop0 a.img b.img] on the initial state, for
    an [unsigned long] of 64 bits. *)
Definition sample_state : grub_state :=
  snd (grub_cmd_loopbackx 64 sample_env false
         ["loop0"; "a.img"; "b.img"]%string initial_state).

(** Six invocations: a create, a create of the same name, the delete of the
    device, a create that reuses the name, a create whose file is missing,
    and a last create. *)
Definition sample_calls : list call :=
  [ mk_call sample_env false ["loop0"; "a.img"; "b.img"]%string;
    mk_call sample_env false ["loop0"; "b.img"]%string;
    mk_call sample_env true ["loop0"]%string;
    mk_call sample_env false ["loop0"; "a.img"]%string;
    mk_call sample_env false ["loop1"; "a.img"; "c.img"]%string;
    mk_call sample_env false ["loop1"; "b.img"]%string ].

(** The two backing files of [sample_state] and its device. *)
Definition sample_file_a : grub_file := mk_file 0 10 0 ten_bytes None.
Definition sample_file_b : grub_file := mk_file 1 20 0 twenty_bytes None.

Definition sample_dev : grub_loopbackx :=
  mk_loopbackx "loop0" [sample_file_a; sample_file_b] 0.

(** A device with the first file alone. *)
Definition single_dev : grub_loopbackx :=
  mk_loopbackx "loop1" [sample_file_a] 1.

(** A buffer that holds [0xff] everywhere before the read. *)
Definition blank_memory : memory := fun _ => xff.

(** A device with the second file alone. *)
Definition second_dev : grub_loopbackx :=
  mk_loopbackx "loop2" [sample_file_b] 2.

(** Two files of two sectors of 512 bytes each. *)
Definition sector_file_a : grub_file := mk_file 0 1024 0 (repeat x41 1024) None.
Definition sector_file_b : grub_file := mk_file 1 1024 0 (repeat x42 1024) None.

Definition sector_dev : grub_loopbackx :=
  mk_loopbackx "loop3" [sector_file_a; sector_file_b] 3.

(** A device of one file of 1000 bytes, which ends inside its second sector
    of 512 bytes. *)
Definition short_file : grub_file := mk_file 0 1000 0 (repeat x43 1000) None.

Definition short_dev : grub_loopbackx := mk_loopbackx "loop7" [short_file] 7.

(** The first file with a read that fails, and a device over it and the
    second file. *)
Definition faulty_file_a : grub_file :=
  mk_file 0 10 0 ten_bytes (Some read_failure).

Definition faulty_dev : grub_loopbackx :=
  mk_loopbackx "loop4" [faulty_file_a; sample_file_b] 4.

(** A file of unknown length between the two sample files, and a state whose
    only device is made of the three. *)
Definition unknown_file : grub_file :=
  mk_file 2 GRUB_FILE_SIZE_UNKNOWN 0 ten_bytes None.

Definition unknown_dev : grub_loopbackx :=
  mk_loopbackx "loop5" [sample_file_a; unknown_file; sample_file_b] 0.

Definition unknown_state : grub_state :=
  mk_state [unknown_dev] 1 no_error 3%nat (fds (files unknown_dev)).

(** Three files of 2 GiB each, and a state whose only device is made of
    them. *)
Definition big_file (fd : nat) : grub_file := mk_file fd (2 ^ 31) 0 [] None.

Definition big_dev : grub_loopbackx :=
  mk_loopbackx "loop6" [big_file 0; big_file 1; big_file 2] 0.

Definition big_state : grub_state :=
  mk_state [big_dev] 1 no_error 3%nat (fds (files big_dev)).

(** A disk before [open]. *)
Definition blank_disk : grub_disk := mk_disk 0 0 0 None.



(** ** The rest of the module *)

(** The state after a sequence of invocations of the command. *)
Fixpoint run (long_bits : Z) (calls : list call) (st : grub_state)
  : grub_state :=
  match calls with
  | [] => st
  | c :: rest => run long_bits rest (snd (run_call long_bits c st))
  end.

(** The handles that the devices of a list hold. *)
Definition owned_fds (l : list grub_loopbackx) : gmultiset nat :=
  fold_right (fun dev acc => fds (files dev) ⊎ acc) ∅ l.

Arguments owned_fds : simpl never.

(** The names of the devices of a list, head first. *)
Definition device_names (l : list grub_loopbackx) : list string :=
  map devname l.

(** The members of [grub_disk_pull_t] (grub/disk.h). *)
Inductive grub_disk_pull_t : Set :=
| GRUB_DISK_PULL_NONE
| GRUB_DISK_PULL_REMOVABLE
| GRUB_DISK_PULL_RESCAN.

Section Iterate.

(** What [hook_data] points to. *)
Variable hook_data : Type.

(** [grub_disk_dev_iterate_hook_t]: the hook sees a name and its data, and
    returns an [int]. *)
Definition grub_disk_dev_iterate_hook_t : Type :=
  string -> hook_data -> Z * hook_data.

(** The [for] loop of [grub_loopbackx_iterate] from device [d] on. *)
Fixpoint iterate_from (hook : grub_disk_dev_iterate_hook_t)
    (l : list grub_loopbackx) (data : hook_data) : Z * hook_data :=
  match l with
  | [] => (0, data)
  | d :: next =>
      let (r, data') := hook (devname d) data in
      if r =? 0 then iterate_from hook next data' else (1, data')
  end.

(** [grub_loopbackx_iterate (hook, hook_data, pull)] *)
Definition grub_loopbackx_iterate (hook : grub_disk_dev_iterate_hook_t)
    (data : hook_data) (pull : grub_disk_pull_t) (st : grub_state)
  : Z * hook_data :=
  match pull with
  | GRUB_DISK_PULL_NONE => iterate_from hook (loopback_list st) data
  | _ => (0, data)
  end.

End Iterate.

(** A hook that stops at the name [name] and has no data. *)
Definition name_hook (name : string) : grub_disk_dev_iterate_hook_t unit :=
  fun n data => (if String.eqb n name then 1 else 0, data).

(** A hook that stops at the names that [accept] and records every name it
    is called with. *)
Definition recording_hook (accept : string -> bool)
  : grub_disk_dev_iterate_hook_t (list string) :=
  fun n seen => (if accept n then 1 else 0, seen ++ [n]).

(** The environment of [sample_calls] when [grub_strdup] fails. *)
Definition no_strdup_env : cmd_env := mk_env sample_fs true false.

(** The names a hook is called with when it stops at the first name that
    [accept]s: the names up to that one. *)
Fixpoint visited_names (accept : string -> bool) (names : list string)
  : list string :=
  match names with
  | [] => []
  | n :: rest => if accept n then [n] else n :: visited_names accept rest
  end.

(** Two states of one open file: all but the read position is the same. *)
Definition same_backing (f f' : grub_file) : Prop :=
  file_fd f' = file_fd f /\ file_size f' = file_size f /\
  file_data f' = file_data f /\ file_fault f' = file_fault f.


(** ** The root variable and the prefix (kern/main.c) *)

From Stdlib Require Import Strings.Ascii.

(** [s[i]] of a C string: the character at [i], NUL at its end. *)
Definition char_at (s : string) (i : nat) : Ascii.ascii :=
  match String.get i s with
  | Some c => c
  | None => Ascii.zero
  end.

(** [s + n]: the string from its character [n] on. *)
Fixpoint string_from (n : nat) (s : string) : string :=
  match n, s with
  | O, _ => s
  | S n', String _ rest => string_from n' rest
  | S _, EmptyString => EmptyString
  end.

(** [grub_strdup (s)] and [grub_strndup (s, n)] (kern/misc.c, not part of
    the sources), as the C functions of those names: a copy of [s], of at
    most [n] characters of it, or a null pointer when the allocation
    fails. *)
Definition grub_strdup (ok : bool) (s : string) : option string :=
  if ok then Some s else None.

Definition grub_strndup (ok : bool) (s : string) (n : nat) : option string :=
  if ok then Some (substring 0 n s) else None.

(** [grub_strchr (s, c)] and [grub_strrchr (s, c)] (kern/misc.c, not part of
    the sources), as the C functions of those names: the place of the first
    and of the last [c] in [s], as an index, or a null pointer. *)
Fixpoint grub_strchr (s : string) (c : Ascii.ascii) : option nat :=
  match s with
  | EmptyString => None
  | String a rest =>
      if Ascii.eqb a c then Some O
      else match grub_strchr rest c with
           | Some i => Some (S i)
           | None => None
           end
  end.

Fixpoint grub_strrchr (s : string) (c : Ascii.ascii) : option nat :=
  match s with
  | EmptyString => None
  | String a rest =>
      match grub_strrchr rest c with
      | Some i => Some (S i)
      | None => if Ascii.eqb a c then Some O else None
      end
  end.

(** [grub_env_write_root (var, val)]; [var] is not used, [ok] tells whether
    the allocation of the result succeeds.  The second test is only made
    after the first, so [val[len - 1]] is never read of an empty [val]. *)
Definition grub_env_write_root (ok : bool) (val : string) : option string :=
  let len := String.length val in
  if Ascii.eqb (char_at val 0) "("%char
  then if Ascii.eqb (char_at val (len - 1)) ")"%char
       then grub_strndup ok (string_from 1 val) (len - 2)
       else grub_strdup ok val
  else grub_strdup ok val.

(** Which of the allocations of [grub_set_prefix_and_root] succeed. *)
Record prefix_allocs : Type := mk_allocs {
  ok_device : bool;
  ok_path : bool;
  ok_drive : bool;
  ok_new_device : bool;
  ok_prefix : bool
}.

Definition all_ok : prefix_allocs := mk_allocs true true true true true.

(** What [grub_set_prefix_and_root] does to its surroundings, in order. *)
Inductive boot_event : Type :=
| RegisterVariableHook (name : string)
| GetBootLocation
| EnvSet (name value : string).

(** [%s] of a string that may be a null pointer, as GRUB prints it. *)
Definition percent_s (s : option string) : string :=
  match s with
  | Some s => s
  | None => "(null)"%string
  end.

(** [grub_xasprintf ("%s%s", a, b)] *)
Definition grub_xasprintf_ss (ok : bool) (a : option string) (b : string)
  : option string :=
  if ok then Some (percent_s a +:+ b) else None.

(** [device[0] == ',' || !device[0]] *)
Definition lacks_drive (device : string) : bool :=
  Ascii.eqb (char_at device 0) ","%char || Ascii.eqb (char_at device 0) Ascii.zero.

(** [grub_set_prefix_and_root ()], for the value of [grub_prefix], for what
    [grub_machine_get_bootlocation] stores in [fwdevice] and [fwpath] when
    it is called, and for the outcomes of the allocations. *)
Definition grub_set_prefix_and_root (grub_prefix : string)
    (boot : option string * option string) (ok : prefix_allocs)
  : list boot_event :=
  let '(device, pptr) :=
    if Ascii.eqb (char_at grub_prefix 0) "("%char
    then match grub_strrchr grub_prefix ")"%char with
         | Some i =>
             (grub_strndup (ok_device ok) (string_from 1 grub_prefix) (i - 1),
              Some (S i))
         | None => (None, None)
         end
    else (None, None) in
  let pptr := match pptr with Some i => i | None => O end in
  let path :=
    if Ascii.eqb (char_at grub_prefix pptr) Ascii.zero then None
    else grub_strdup (ok_path ok) (string_from pptr grub_prefix) in
  let ask :=
    match device with None => true | Some d => lacks_drive d end
    || match path with None => true | Some _ => false end in
  let '(fwdevice, fwpath) := if ask then boot else (None, None) in
  let device :=
    match device, fwdevice with
    | None, Some fw => Some fw
    | Some d, Some fw =>
        if lacks_drive d then
          match grub_strchr fw ","%char with
          | Some comma =>
              grub_xasprintf_ss (ok_new_device ok)
                (grub_strndup (ok_drive ok) fw comma) d
          | None => grub_xasprintf_ss (ok_new_device ok) (Some fw) d
          end
        else Some d
    | _, None => device
    end in
  let path :=
    match fwpath, path with
    | Some fp, None => Some fp
    | _, _ => path
    end in
  RegisterVariableHook "root"
  :: (if ask then [GetBootLocation] else [])
  ++ match device with
     | Some d =>
         (if ok_prefix ok
          then [EnvSet "prefix"
                  ("(" +:+ d +:+ ")" +:+ match path with Some p => p | None => "" end)%string]
          else [])
         ++ [EnvSet "root" d]
     | None => []
     end.

(** * Properties *)

(** ** Machine integers *)

Lemma wrap_small (bits x : Z) : 0 <= x < 2 ^ bits -> wrap bits x = x.
Proof. intros H. unfold wrap. now apply Z.mod_small. Qed.

Lemma pow2_le_64 (bits : Z) : 0 <= bits <= 64 -> 2 ^ bits <= 2 ^ 64.
Proof. intros H. apply Z.pow_le_mono_r; lia. Qed.

(** ** Handles *)

Lemma fds_app (l1 l2 : list grub_file) : fds (l1 ++ l2) = fds l1 ⊎ fds l2.
Proof.
  unfold fds. rewrite map_app, list_to_set_disj_app. reflexivity.
Qed.

Lemma fds_cons (f : grub_file) (l : list grub_file) :
  fds (f :: l) = {[+ file_fd f +]} ⊎ fds l.
Proof. reflexivity. Qed.

(** Closing leaves everything but the open handles alone. *)
Lemma close_fold_frame (fl : list grub_file) (st : grub_state) :
  let st' := fold_left (fun s f => grub_file_close f s) fl st in
  loopback_list st' = loopback_list st /\ last_id st' = last_id st /\
  grub_err st' = grub_err st /\ next_fd st' = next_fd st /\
  open_fds st' = open_fds st ∖ fds fl.
Proof.
  revert st. induction fl as [|f fl IH]; intros st; cbn [fold_left].
  - repeat split. unfold fds; cbn. multiset_solver.
  - destruct (IH (grub_file_close f st)) as (H1 & H2 & H3 & H4 & H5).
    rewrite H1, H2, H3, H4, H5, fds_cons. cbn [grub_file_close loopback_list
      last_id grub_err next_fd open_fds].
    repeat split. clear IH H1 H2 H3 H4 H5. multiset_solver.
Qed.

Lemma close_ascending_frame (fl : list grub_file) (st : grub_state) :
  let st' := close_ascending fl st in
  loopback_list st' = loopback_list st /\ last_id st' = last_id st /\
  grub_err st' = grub_err st /\ next_fd st' = next_fd st /\
  open_fds st' = open_fds st ∖ fds fl.
Proof. apply close_fold_frame. Qed.

Lemma fds_rev (fl : list grub_file) : fds (rev fl) = fds fl.
Proof.
  induction fl as [|f fl IH]; [reflexivity|].
  cbn [rev]. rewrite fds_app, IH, !fds_cons. change (fds []) with (∅ : gmultiset nat).
  clear IH. multiset_solver.
Qed.

Lemma close_descending_frame (fl : list grub_file) (st : grub_state) :
  let st' := close_descending fl st in
  loopback_list st' = loopback_list st /\ last_id st' = last_id st /\
  grub_err st' = grub_err st /\ next_fd st' = next_fd st /\
  open_fds st' = open_fds st ∖ fds fl.
Proof.
  unfold close_descending. rewrite <- (fds_rev fl). apply close_fold_frame.
Qed.

(** ** The open loop of a create *)

(** What the open loop leaves: the handles it opened are appended to
    [opened] and recorded as open, one handle number each; the device list
    and the id counter are not touched. *)
Lemma open_chain_frame (fs : file_system) (paths : list string) :
  forall opened st ok opened' st1,
    open_chain fs paths opened st = (ok, opened', st1) ->
    exists new,
      opened' = opened ++ new /\
      loopback_list st1 = loopback_list st /\
      last_id st1 = last_id st /\
      open_fds st1 = open_fds st ⊎ fds new /\
      next_fd st1 = (next_fd st + length new)%nat /\
      (ok = true -> length new = length paths /\ grub_err st1 = grub_err st).
Proof.
  induction paths as [|p ps IH]; intros opened st ok opened' st1 H; cbn in H.
  - inversion H; subst. exists []. rewrite app_nil_r.
    change (fds []) with (∅ : gmultiset nat). cbn [length].
    repeat split; try reflexivity; try lia. clear H. multiset_solver.
  - unfold grub_file_open in H. destruct (fs p) as [e|img].
    + inversion H; subst. exists []. rewrite app_nil_r.
      change (fds []) with (∅ : gmultiset nat). cbn.
      repeat split; try lia; try discriminate. clear H IH. multiset_solver.
    + apply IH in H. destruct H as (new & -> & H1 & H2 & H3 & H4 & H5). cbn in *.
      exists (mk_file (next_fd st) (img_size img) 0 (img_data img) (img_fault img) :: new).
      rewrite <- app_assoc. cbn [app length]. rewrite fds_cons. cbn [file_fd].
      repeat split; try assumption; try lia.
      * rewrite H3. clear. multiset_solver.
      * apply H5 in H. lia.
      * apply H5 in H. tauto.
Qed.

(** The first failing open ends the loop with its error in [grub_errno]. *)
Lemma open_chain_fails (fs : file_system) (pre : list string) (bad : string)
    (post : list string) (e : grub_error_state) :
  (forall p, In p pre -> exists img, fs p = inr img) ->
  fs bad = inl e ->
  forall opened st,
  exists new st1,
    open_chain fs (pre ++ bad :: post) opened st = (false, opened ++ new, st1) /\
    length new = length pre /\ grub_err st1 = e.
Proof.
  intros Hpre Hbad. induction pre as [|p pre IH]; intros opened st; cbn.
  - unfold grub_file_open. rewrite Hbad. exists [], (set_err e st).
    rewrite app_nil_r. auto.
  - unfold grub_file_open. destruct (Hpre p) as [img Himg]; [now left|].
    rewrite Himg.
    match goal with |- context [open_chain _ _ (opened ++ [?f]) ?s] =>
      destruct (IH (fun q Hq => Hpre q (or_intror Hq)) (opened ++ [f]) s)
        as (new & st1 & H1 & H2 & H3); exists (f :: new), st1 end.
    rewrite H1, <- app_assoc. cbn. auto.
Qed.

(** The failure path returns [grub_errno] and gives back every handle. *)
Lemma create_fail_frame (opened : list grub_file) (st : grub_state) :
  let '(ret, st') := create_fail opened st in
  ret = grub_errno (grub_err st) /\ grub_err st' = grub_err st /\
  loopback_list st' = loopback_list st /\ last_id st' = last_id st /\
  next_fd st' = next_fd st /\ open_fds st' = open_fds st ∖ fds opened.
Proof.
  unfold create_fail.
  destruct (close_ascending_frame opened st) as (H1 & H2 & H3 & H4 & H5).
  tauto.
Qed.

(** ** The command *)

Lemma argc_cons (name : string) (paths : list string) :
  Z.of_nat (length (name :: paths)) = 1 + Z.of_nat (length paths).
Proof. cbn [length]. lia. Qed.

(** Without [-d] and with a name, a path count in range and a new name, the
    command reaches the open loop. *)
Lemma create_reaches_open (long_bits : Z) (env : cmd_env) (name : string)
    (paths : list string) (st : grub_state) :
  1 <= Z.of_nat (length paths) <= MAXCHAINFILES ->
  find_device name (loopback_list st) = None ->
  grub_cmd_loopbackx long_bits env false (name :: paths) st =
  match open_chain (env_fs env) paths [] st with
  | (false, opened, st1) => create_fail opened st1
  | (true, opened, st1) =>
      if negb (env_malloc_ok env) then create_fail opened (out_of_memory st1)
      else if negb (env_strdup_ok env) then create_fail opened (out_of_memory st1)
      else
        (GRUB_ERR_NONE,
         mk_state (mk_loopbackx name opened (last_id st1) :: loopback_list st1)
                  (wrap long_bits (last_id st1 + 1))
                  (grub_err st1) (next_fd st1) (open_fds st1))
  end.
Proof.
  intros Hn Hfind. unfold grub_cmd_loopbackx. rewrite argc_cons.
  cbn [hd tl]. unfold MAXCHAINFILES in *.
  destruct (Z.ltb_spec (1 + Z.of_nat (length paths)) 1); [lia|].
  destruct (Z.ltb_spec (1 + Z.of_nat (length paths)) 2); [lia|].
  destruct (Z.gtb_spec (1 + Z.of_nat (length paths)) (4 + 1)); [lia|].
  rewrite Hfind. reflexivity.
Qed.

(** C4: when the open of a path fails, the files opened before it in the
    same attempt are closed again, the command returns the error of that
    open, and the device list (and the id counter) is as before. *)
Theorem create_open_failure_is_atomic (long_bits : Z) (env : cmd_env)
    (st : grub_state) (name : string) (pre : list string) (bad : string)
    (post : list string) (e : grub_error_state) :
  Z.of_nat (length (pre ++ bad :: post)) <= MAXCHAINFILES ->
  find_device name (loopback_list st) = None ->
  (forall p, In p pre -> exists img, env_fs env p = inr img) ->
  env_fs env bad = inl e ->
  let '(ret, st') :=
    grub_cmd_loopbackx long_bits env false (name :: pre ++ bad :: post) st in
  ret = grub_errno e /\
  grub_err st' = e /\
  loopback_list st' = loopback_list st /\
  last_id st' = last_id st /\
  next_fd st' = (next_fd st + length pre)%nat /\
  open_fds st' = open_fds st.
Proof.
  intros Hlen Hfind Hpre Hbad.
  rewrite create_reaches_open; [|rewrite length_app in *; cbn [length] in *; lia|assumption].
  destruct (open_chain_fails (env_fs env) pre bad post e Hpre Hbad [] st)
    as (new & st1 & Hrun & Hnew & Herr).
  rewrite Hrun. cbn [app].
  destruct (open_chain_frame _ _ _ _ _ _ _ Hrun) as (new' & Heq & H1 & H2 & H3 & H4 & _).
  cbn [app] in Heq. subst new'.
  pose proof (create_fail_frame new st1) as Hfail.
  destruct (create_fail new st1) as [ret st'].
  destruct Hfail as (F0 & Fe & F1 & F2 & F3 & F4).
  repeat split; try congruence.
  rewrite F4, H3. clear. multiset_solver.
Qed.

Lemma create_open_failure_is_atomic_witness :
  let '(ret, st') :=
    grub_cmd_loopbackx 64 sample_env false
      ["loop1"; "a.img"; "b.img"; "c.img"; "a.img"]%string sample_state in
  ret = GRUB_ERR_FILE_NOT_FOUND /\
  grub_err st' = file_not_found /\
  loopback_list st' = loopback_list sample_state /\
  last_id st' = last_id sample_state /\
  next_fd st' = (next_fd sample_state + 2)%nat /\
  open_fds st' = open_fds sample_state.
Proof.
  apply (create_open_failure_is_atomic 64 sample_env sample_state "loop1"
           ["a.img"; "b.img"]%string "c.img" ["a.img"%string] file_not_found).
  - cbn. unfold MAXCHAINFILES. lia.
  - reflexivity.
  - intros p [<-|[<-|[]]]; eexists; reflexivity.
  - reflexivity.
Defined.

(** A failing [grub_error] path changes nothing but the error state. *)
Lemma grub_error_frame (n : grub_err_t) (msg : string) (st : grub_state) :
  let '(ret, st') := grub_error n msg st in
  ret = n /\ grub_err st' = mk_error n msg /\
  loopback_list st' = loopback_list st /\ last_id st' = last_id st /\
  next_fd st' = next_fd st /\ open_fds st' = open_fds st.
Proof. cbn. tauto. Qed.

(** C8, as stated, fails: the number of arguments is checked before the
    name is looked up, so a create of an existing name without a file, or
    with more than [MAXCHAINFILES] files, fails with the error of that
    check and not with the error of the duplicate check. *)
Lemma create_existing_name_without_file :
  find_device "loop0" (loopback_list sample_state) = Some sample_dev /\
  grub_cmd_loopbackx 64 sample_env false ["loop0"]%string sample_state =
    grub_error GRUB_ERR_BAD_ARGUMENT "filename expected" sample_state /\
  grub_cmd_loopbackx 64 sample_env false
      ["loop0"; "a.img"; "a.img"; "a.img"; "a.img"; "a.img"]%string
      sample_state =
    grub_error GRUB_ERR_BAD_ARGUMENT "too many filenames expected" sample_state /\
  grub_err (snd (grub_cmd_loopbackx 64 sample_env false ["loop0"]%string
                   sample_state)) <>
    mk_error GRUB_ERR_BAD_ARGUMENT "device name already exists".
Proof. repeat split; try reflexivity. discriminate. Qed.

(** C8, amended: a create whose name is already in the device list fails
    with [GRUB_ERR_BAD_ARGUMENT] and leaves the device list, the id counter
    and the open handles as they were.  With one to [MAXCHAINFILES] paths
    the error is the one of the duplicate check, "device name already
    exists"; without a path or with more paths it is the error of the
    argument count, which is checked first. *)
Theorem create_existing_name_rejected (long_bits : Z) (env : cmd_env)
    (name : string) (paths : list string) (st : grub_state)
    (dev : grub_loopbackx) :
  find_device name (loopback_list st) = Some dev ->
  let '(ret, st') :=
    grub_cmd_loopbackx long_bits env false (name :: paths) st in
  ret = GRUB_ERR_BAD_ARGUMENT /\
  grub_errno (grub_err st') = GRUB_ERR_BAD_ARGUMENT /\
  loopback_list st' = loopback_list st /\
  last_id st' = last_id st /\
  next_fd st' = next_fd st /\
  open_fds st' = open_fds st /\
  grub_errmsg (grub_err st') =
    if Z.of_nat (length paths) <? 1 then "filename expected"%string
    else if Z.of_nat (length paths) >? MAXCHAINFILES
         then "too many filenames expected"%string
         else "device name already exists"%string.
Proof.
  intros Hfind. unfold grub_cmd_loopbackx. rewrite argc_cons. cbn [hd].
  unfold MAXCHAINFILES.
  destruct (Z.ltb_spec (1 + Z.of_nat (length paths)) 1); [lia|].
  destruct (Z.ltb_spec (1 + Z.of_nat (length paths)) 2);
    destruct (Z.ltb_spec (Z.of_nat (length paths)) 1); try lia.
  { cbn. repeat split. }
  destruct (Z.gtb_spec (1 + Z.of_nat (length paths)) (4 + 1));
    destruct (Z.gtb_spec (Z.of_nat (length paths)) 4); try lia.
  { cbn. repeat split. }
  rewrite Hfind. cbn. repeat split.
Qed.

Lemma create_existing_name_rejected_witness :
  find_device "loop0" (loopback_list sample_state) = Some sample_dev /\
  let '(ret, st') :=
    grub_cmd_loopbackx 64 sample_env false ["loop0"; "b.img"]%string
      sample_state in
  ret = GRUB_ERR_BAD_ARGUMENT /\
  grub_errno (grub_err st') = GRUB_ERR_BAD_ARGUMENT /\
  loopback_list st' = loopback_list sample_state /\
  last_id st' = last_id sample_state /\
  next_fd st' = next_fd sample_state /\
  open_fds st' = open_fds sample_state /\
  grub_errmsg (grub_err st') = "device name already exists"%string.
Proof.
  split; [reflexivity|].
  apply (create_existing_name_rejected 64 sample_env "loop0"
           ["b.img"%string] sample_state sample_dev).
  reflexivity.
Defined.

(** C9, as stated, fails: with [-d], a device name and two more arguments
    the command does not fail with [GRUB_ERR_BAD_ARGUMENT]; it succeeds and
    deletes the device. *)
Lemma delete_accepts_extra_arguments :
  let '(ret, st') :=
    grub_cmd_loopbackx 64 sample_env true ["loop0"; "extra"; "more"]%string
      sample_state in
  loopback_list sample_state <> [] /\
  ret = GRUB_ERR_NONE /\ ret <> GRUB_ERR_BAD_ARGUMENT /\
  loopback_list st' = [].
Proof. cbn. repeat split; discriminate. Qed.

(** The first device called [name] splits the list: no device before it has
    the name, and the unlink takes just that device out. *)
Lemma unlink_device_split (name : string) (l : list grub_loopbackx)
    (dev : grub_loopbackx) :
  find_device name l = Some dev ->
  exists before after,
    l = before ++ dev :: after /\
    ~ In name (device_names before) /\
    devname dev = name /\
    unlink_device name l = before ++ after.
Proof.
  induction l as [|d l IH]; cbn [find_device unlink_device]; [discriminate|].
  destruct (String.eqb_spec (devname d) name) as [E|E].
  - intros [= <-]. exists [], l. cbn. auto.
  - intros H. destruct (IH H) as (before & after & -> & Hb & Hn & ->).
    exists (d :: before), after. cbn. repeat split; try assumption.
    intros [H1|H1]; [contradiction|now apply Hb].
Qed.

(** C9, amended: with [-d] the command needs at least one argument.
    Without any it fails with [GRUB_ERR_BAD_ARGUMENT] and changes nothing
    but the error state.  Otherwise it looks at the first argument only,
    whatever follows it.  When a device of that name exists it succeeds: the
    first device of the name is taken out of the list, the other devices
    stay in their order, and the handles of the device are closed.  When
    none exists it fails with [GRUB_ERR_BAD_DEVICE] and the list and the
    handles are as before. *)
Theorem delete_mode_takes_first_argument (long_bits : Z) (env : cmd_env)
    (st : grub_state) :
  (let '(ret, st') := grub_cmd_loopbackx long_bits env true [] st in
   ret = GRUB_ERR_BAD_ARGUMENT /\
   grub_errno (grub_err st') = GRUB_ERR_BAD_ARGUMENT /\
   loopback_list st' = loopback_list st /\
   open_fds st' = open_fds st /\ last_id st' = last_id st) /\
  forall (name : string) (rest : list string),
    let '(ret, st') := grub_cmd_loopbackx long_bits env true (name :: rest) st in
    last_id st' = last_id st /\
    match find_device name (loopback_list st) with
    | Some dev =>
        ret = GRUB_ERR_NONE /\
        (exists before after,
           loopback_list st = before ++ dev :: after /\
           ~ In name (device_names before) /\
           devname dev = name /\
           loopback_list st' = before ++ after) /\
        open_fds st' = open_fds st ∖ fds (files dev)
    | None =>
        ret = GRUB_ERR_BAD_DEVICE /\
        grub_errno (grub_err st') = GRUB_ERR_BAD_DEVICE /\
        loopback_list st' = loopback_list st /\
        open_fds st' = open_fds st
    end.
Proof.
  split; [cbn; repeat split|]. intros name rest.
  unfold grub_cmd_loopbackx. rewrite argc_cons.
  destruct (Z.ltb_spec (1 + Z.of_nat (length rest)) 1); [lia|].
  cbn [hd]. unfold delete_loopbackx.
  destruct (find_device name (loopback_list st)) as [dev|] eqn:Hf.
  - destruct (close_descending_frame (files dev)
                (mk_state (unlink_device name (loopback_list st))
                   (last_id st) (grub_err st) (next_fd st) (open_fds st)))
      as (H1 & H2 & _ & _ & H5).
    cbn [loopback_list last_id open_fds] in H1, H2, H5.
    split; [exact H2|]. split; [reflexivity|]. split; [|exact H5].
    destruct (unlink_device_split name _ dev Hf)
      as (before & after & E1 & E2 & E3 & E4).
    exists before, after. rewrite H1. auto.
  - cbn. repeat split.
Qed.

(** With two more arguments after the name, [loop0] is deleted from
    [sample_state] all the same, and its two handles are closed; the delete
    of a name that is not there changes nothing. *)
Lemma delete_mode_takes_first_argument_witness :
  (let '(ret, st') :=
     grub_cmd_loopbackx 64 sample_env true ["loop0"; "extra"; "more"]%string
       sample_state in
   last_id st' = last_id sample_state /\
   ret = GRUB_ERR_NONE /\
   (exists before after,
      loopback_list sample_state = before ++ sample_dev :: after /\
      ~ In "loop0"%string (device_names before) /\
      devname sample_dev = "loop0"%string /\
      loopback_list st' = before ++ after) /\
   open_fds st' = open_fds sample_state ∖ fds (files sample_dev)) /\
  (let '(ret, st') :=
     grub_cmd_loopbackx 64 sample_env true ["loop7"]%string sample_state in
   last_id st' = last_id sample_state /\
   ret = GRUB_ERR_BAD_DEVICE /\
   grub_errno (grub_err st') = GRUB_ERR_BAD_DEVICE /\
   loopback_list st' = loopback_list sample_state /\
   open_fds st' = open_fds sample_state).
Proof.
  split.
  - exact (proj2 (delete_mode_takes_first_argument 64 sample_env sample_state)
             "loop0"%string ["extra"; "more"]%string).
  - exact (proj2 (delete_mode_takes_first_argument 64 sample_env sample_state)
             "loop7"%string []).
Defined.

(** ** The id counter *)

Lemma created_by_same (st st' : grub_state) :
  loopback_list st' = loopback_list st -> created_by st st' = None.
Proof.
  intros H. unfold created_by. rewrite H.
  destruct (loopback_list st) as [|dev next]; [reflexivity|].
  cbn [length]. destruct (Nat.eqb_spec (length next) (S (length next))); [lia|reflexivity].
Qed.

Lemma created_by_head (st st' : grub_state) (dev : grub_loopbackx) :
  loopback_list st' = dev :: loopback_list st -> created_by st st' = Some dev.
Proof.
  intros H. unfold created_by. rewrite H. now rewrite Nat.eqb_refl.
Qed.

Lemma unlink_device_length (name : string) (l : list grub_loopbackx)
    (dev : grub_loopbackx) :
  find_device name l = Some dev -> S (length (unlink_device name l)) = length l.
Proof.
  induction l as [|d l IH]; cbn; [discriminate|].
  destruct (String.eqb (devname d) name); [reflexivity|].
  intros H. cbn. now rewrite IH.
Qed.

Lemma created_by_shorter (st st' : grub_state) :
  (length (loopback_list st') < length (loopback_list st))%nat ->
  created_by st st' = None.
Proof.
  intros H. unfold created_by.
  destruct (loopback_list st') as [|dev next]; [reflexivity|].
  cbn [length] in H.
  destruct (Nat.eqb_spec (length next) (length (loopback_list st))); [lia|reflexivity].
Qed.

(** One invocation either creates a device, which takes the value of the
    counter as its id while the counter moves on by one, or creates none
    and leaves the counter alone. *)
Lemma cmd_step (long_bits : Z) (env : cmd_env) (delete_set : bool)
    (args : list string) (st : grub_state) :
  let ret := fst (grub_cmd_loopbackx long_bits env delete_set args st) in
  let st' := snd (grub_cmd_loopbackx long_bits env delete_set args st) in
  (exists dev, created_by st st' = Some dev /\ id dev = last_id st /\
               last_id st' = wrap long_bits (last_id st + 1) /\
               ret = GRUB_ERR_NONE /\ delete_set = false) \/
  (created_by st st' = None /\ last_id st' = last_id st).
Proof.
  cbv zeta. unfold grub_cmd_loopbackx.
  destruct (Z.of_nat (length args) <? 1).
  { right. split; [now apply created_by_same|reflexivity]. }
  destruct delete_set.
  { right. unfold delete_loopbackx.
    destruct (find_device (hd ""%string args) (loopback_list st)) as [dev|] eqn:Hf.
    - cbn [snd].
      destruct (close_descending_frame (files dev)
                  (mk_state (unlink_device (hd ""%string args) (loopback_list st))
                     (last_id st) (grub_err st) (next_fd st) (open_fds st)))
        as (H1 & H2 & _).
      split; [|exact H2].
      apply created_by_shorter. rewrite H1. cbn.
      apply unlink_device_length in Hf. lia.
    - split; [now apply created_by_same|reflexivity]. }
  destruct (Z.of_nat (length args) <? 2).
  { right. split; [now apply created_by_same|reflexivity]. }
  destruct (Z.of_nat (length args) >? MAXCHAINFILES + 1).
  { right. split; [now apply created_by_same|reflexivity]. }
  destruct (find_device (hd ""%string args) (loopback_list st)).
  { right. split; [now apply created_by_same|reflexivity]. }
  destruct (open_chain (env_fs env) (tl args) [] st) as [[ok opened] st1] eqn:Hrun.
  destruct (open_chain_frame _ _ _ _ _ _ _ Hrun) as (new & _ & H1 & H2 & _).
  assert (forall s, loopback_list s = loopback_list st1 -> last_id s = last_id st1 ->
            created_by st (snd (create_fail opened s)) = None /\
            last_id (snd (create_fail opened s)) = last_id st) as Hfail.
  { intros s L1 L2. pose proof (create_fail_frame opened s) as F.
    destruct (create_fail opened s) as [r s']. cbn [snd].
    destruct F as (_ & _ & F1 & F2 & _).
    split; [apply created_by_same|]; congruence. }
  destruct ok; [|right; now apply Hfail].
  destruct (env_malloc_ok env); cbn [negb]; [|right; now apply Hfail].
  destruct (env_strdup_ok env); cbn [negb]; [|right; now apply Hfail].
  left. eexists. cbn [fst snd]. split; [apply created_by_head; cbn; now rewrite H1|].
  cbn. rewrite H2. auto.
Qed.

Lemma map_seq_shift (f : nat -> Z) (n : nat) :
  map f (seq 1 n) = map (fun k => f (S k)) (seq 0 n).
Proof. rewrite <- seq_shift, map_map. reflexivity. Qed.

(** The ids of the devices created from the initial state are the values
    of the counter, which counts from 0 modulo [2 ^ long_bits]. *)
Lemma created_ids_wrap (long_bits : Z) (calls : list call) :
  forall st k,
    last_id st = wrap long_bits k ->
    created_ids long_bits calls st =
      map (fun j => wrap long_bits (k + Z.of_nat j))
          (seq 0 (length (created_ids long_bits calls st))).
Proof.
  induction calls as [|c calls IH]; intros st k Hk; [reflexivity|].
  cbn [created_ids]. unfold run_call.
  pose proof (cmd_step long_bits (call_env c) (call_delete c) (call_args c) st)
    as Hstep. cbv zeta in Hstep.
  set (st' := snd (grub_cmd_loopbackx long_bits (call_env c) (call_delete c)
                     (call_args c) st)) in *.
  destruct Hstep as [(dev & Hc & Hid & Hnext & _)|(Hc & Hnext)]; rewrite Hc.
  - assert (last_id st' = wrap long_bits (k + 1)) as Hk'.
    { rewrite Hnext, Hk. unfold wrap. apply Zplus_mod_idemp_l. }
    cbn [length seq map]. rewrite Hid, Hk, Z.add_0_r. f_equal.
    rewrite (IH st' (k + 1) Hk') at 1. rewrite map_seq_shift.
    apply map_ext. intros j. f_equal. lia.
  - apply IH. now rewrite Hnext.
Qed.

(** As long as no more than [2 ^ long_bits] devices have been created, the
    counter has not wrapped and the ids are 0, 1, 2, ... *)
Lemma created_ids_consecutive (long_bits : Z) (calls : list call) :
  Z.of_nat (length (created_ids long_bits calls initial_state)) <= 2 ^ long_bits ->
  created_ids long_bits calls initial_state =
    map Z.of_nat (seq 0 (length (created_ids long_bits calls initial_state))).
Proof.
  intros Hfit.
  rewrite (created_ids_wrap long_bits calls initial_state 0) at 1
    by (unfold wrap; now rewrite Zmod_0_l).
  apply map_ext_in. intros j Hj. apply in_seq in Hj.
  rewrite Z.add_0_l. apply wrap_small. lia.
Qed.

Lemma consecutive_sorted (n a : nat) :
  StronglySorted Z.lt (map Z.of_nat (seq a n)).
Proof.
  revert a. induction n as [|n IH]; intros a; cbn [seq map]; constructor.
  - apply IH.
  - apply Forall_forall. intros x Hx. apply in_map_iff in Hx.
    destruct Hx as (k & <- & Hk). apply in_seq in Hk. lia.
Qed.

Lemma sorted_lt_NoDup (l : list Z) : StronglySorted Z.lt l -> NoDup l.
Proof.
  induction 1 as [|x l Hs IH Hx]; constructor; [|assumption].
  intros Hin. rewrite Forall_forall in Hx.
  apply list_elem_of_In in Hin. apply Hx in Hin. lia.
Qed.

(** C6: over any sequence of invocations from the initial state, the ids of
    the devices created strictly increase in creation order, and no id is
    given twice, whatever is deleted or which names are used again; this
    for the first [2 ^ long_bits] devices created, the range of the
    [unsigned long] counter. *)
Theorem created_ids_strictly_increase (long_bits : Z) (calls : list call) :
  Z.of_nat (length (created_ids long_bits calls initial_state)) <= 2 ^ long_bits ->
  StronglySorted Z.lt (created_ids long_bits calls initial_state) /\
  NoDup (created_ids long_bits calls initial_state).
Proof.
  intros Hfit.
  assert (StronglySorted Z.lt (created_ids long_bits calls initial_state)) as Hs.
  { rewrite (created_ids_consecutive long_bits calls Hfit).
    apply consecutive_sorted. }
  split; [exact Hs|now apply sorted_lt_NoDup].
Qed.

Lemma created_ids_strictly_increase_witness :
  Z.of_nat (length (created_ids 64 sample_calls initial_state)) <= 2 ^ 64 /\
  created_ids 64 sample_calls initial_state = [0; 1; 2] /\
  StronglySorted Z.lt (created_ids 64 sample_calls initial_state) /\
  NoDup (created_ids 64 sample_calls initial_state).
Proof.
  split; [apply Z.leb_le; reflexivity|]. split; [reflexivity|].
  apply (created_ids_strictly_increase 64 sample_calls).
  apply Z.leb_le. reflexivity.
Defined.

(** C10: an invocation that fails, or that creates no device, leaves the id
    counter as it was; so the devices created by a sequence of invocations
    from the initial state have the ids 0, 1, 2, ... in creation order,
    without a gap: as numbers modulo [2 ^ long_bits] in general, and as they
    are for the first [2 ^ long_bits] devices created. *)
Theorem failed_create_keeps_id_counter (long_bits : Z) :
  (forall (env : cmd_env) (delete_set : bool) (args : list string)
          (st : grub_state),
     let ret := fst (grub_cmd_loopbackx long_bits env delete_set args st) in
     let st' := snd (grub_cmd_loopbackx long_bits env delete_set args st) in
     ret <> GRUB_ERR_NONE \/ created_by st st' = None ->
     last_id st' = last_id st) /\
  (forall calls : list call,
     created_ids long_bits calls initial_state =
       map (fun j => wrap long_bits (Z.of_nat j))
           (seq 0 (length (created_ids long_bits calls initial_state)))) /\
  (forall calls : list call,
     Z.of_nat (length (created_ids long_bits calls initial_state))
       <= 2 ^ long_bits ->
     created_ids long_bits calls initial_state =
       map Z.of_nat (seq 0 (length (created_ids long_bits calls initial_state)))).
Proof.
  split; [|split].
  - intros env delete_set args st ret st' H.
    destruct (cmd_step long_bits env delete_set args st)
      as [(dev & Hc & _ & _ & Hret & _)|(_ & Hnext)]; [|exact Hnext].
    fold ret in Hret. fold st' in Hc. destruct H; congruence.
  - intros calls.
    apply (created_ids_wrap long_bits calls initial_state 0).
    unfold wrap. now rewrite Zmod_0_l.
  - intros calls. apply created_ids_consecutive.
Qed.

Lemma failed_create_keeps_id_counter_witness :
  (fst (grub_cmd_loopbackx 64 sample_env false
          ["loop1"; "a.img"; "c.img"]%string sample_state) <> GRUB_ERR_NONE /\
   last_id (snd (grub_cmd_loopbackx 64 sample_env false
                   ["loop1"; "a.img"; "c.img"]%string sample_state)) =
   last_id sample_state) /\
  Z.of_nat (length (created_ids 64 sample_calls initial_state)) <= 2 ^ 64 /\
  created_ids 64 sample_calls initial_state =
    map Z.of_nat (seq 0 (length (created_ids 64 sample_calls initial_state))).
Proof.
  destruct (failed_create_keeps_id_counter 64) as (Hkeep & _ & Hids).
  split; [split; [discriminate|]|split; [apply Z.leb_le; reflexivity|]].
  - apply (Hkeep sample_env false ["loop1"; "a.img"; "c.img"]%string sample_state).
    left. discriminate.
  - apply (Hids sample_calls). apply Z.leb_le. reflexivity.
Defined.

(** ** Size aggregation *)

Lemma sector_size_pow2 (bits : Z) : 0 <= bits -> GRUB_DISK_SECTOR_SIZE bits = 2 ^ bits.
Proof. intros H. unfold GRUB_DISK_SECTOR_SIZE. now rewrite Z.shiftl_1_l. Qed.

Lemma chain_length_cons (f : grub_file) (fl : list grub_file) :
  chain_length (f :: fl) = file_size f + chain_length fl.
Proof. reflexivity. Qed.

Lemma chain_length_nonneg (fl : list grub_file) :
  Forall size_known fl -> 0 <= chain_length fl.
Proof.
  induction 1 as [|f fl Hf _ IH]; [change (chain_length []) with 0; lia|].
  rewrite chain_length_cons. unfold size_known in Hf. lia.
Qed.

Lemma chain_length_app (l1 l2 : list grub_file) :
  chain_length (l1 ++ l2) = chain_length l1 + chain_length l2.
Proof.
  induction l1 as [|f l1 IH]; [reflexivity|].
  cbn [app]. rewrite !chain_length_cons, IH. lia.
Qed.

(** Over files of known lengths whose sum fits [grub_size_t], the loop adds
    the lengths up and leaves [total_sectors] alone. *)
Lemma size_walk_known (size_bits : Z) (fl : list grub_file) :
  size_bits <= 64 ->
  Forall size_known fl ->
  forall sectors alldata,
    0 <= alldata ->
    alldata + chain_length fl < 2 ^ size_bits ->
    size_walk size_bits fl sectors alldata = (sectors, alldata + chain_length fl).
Proof.
  intros Hbits. induction 1 as [|f fl Hf Hfl IH]; intros sectors alldata Hpos Hfit;
    cbn [size_walk].
  - change (chain_length []) with 0. cbn. now rewrite Z.add_0_r.
  - rewrite chain_length_cons in *. pose proof (chain_length_nonneg fl Hfl).
    unfold size_known in Hf.
    destruct (Z.eqb_spec (file_size f) GRUB_FILE_SIZE_UNKNOWN); [lia|].
    assert (0 <= size_bits) as Hnn.
    { destruct (Z.le_gt_cases 0 size_bits); [assumption|].
      rewrite Z.pow_neg_r in Hfit; lia. }
    pose proof (pow2_le_64 size_bits ltac:(lia)).
    unfold to_size, to_u64. rewrite (wrap_small 64), wrap_small by lia.
    rewrite IH by lia. f_equal. lia.
Qed.


Lemma wrap_wrap_64 (bits x : Z) :
  0 <= bits <= 64 -> wrap bits (wrap 64 x) = wrap bits x.
Proof.
  intros H. unfold wrap. apply Z.mod_mod_divide.
  exists (2 ^ (64 - bits)). rewrite <- Z.pow_add_r by lia. f_equal. lia.
Qed.

(** Over files of known lengths the loop adds the lengths up modulo
    [2 ^ size_bits]. *)
Lemma size_walk_modulo (size_bits : Z) (fl : list grub_file) :
  0 <= size_bits <= 64 ->
  Forall size_known fl ->
  forall sectors alldata,
    size_walk size_bits fl sectors (wrap size_bits alldata) =
    (sectors, wrap size_bits (alldata + chain_length fl)).
Proof.
  intros Hb. induction 1 as [|f fl Hf Hfl IH]; intros sectors alldata;
    cbn [size_walk].
  - change (chain_length []) with 0. now rewrite Z.add_0_r.
  - rewrite chain_length_cons. unfold size_known in Hf.
    destruct (Z.eqb_spec (file_size f) GRUB_FILE_SIZE_UNKNOWN); [lia|].
    unfold to_size, to_u64. rewrite wrap_wrap_64 by assumption.
    replace (wrap size_bits (wrap size_bits alldata + file_size f))
      with (wrap size_bits (alldata + file_size f))
      by (unfold wrap; now rewrite Zplus_mod_idemp_l).
    rewrite IH. do 2 f_equal. lia.
Qed.




(** The 30 bytes of the sample device make one sector of 512 bytes and
    eight sectors of 4 bytes. *)
Example open_sample_sectors :
  total_sectors (snd (fst (grub_loopbackx_open 64 9 6 "loop0" blank_disk sample_state))) = 1 /\
  total_sectors (snd (fst (grub_loopbackx_open 64 2 6 "loop0" blank_disk sample_state))) = 8.
Proof. split; reflexivity. Qed.

(** A file of unknown length makes the size of the disk unknown. *)
Example open_unknown_sectors :
  total_sectors (snd (fst (grub_loopbackx_open 64 9 6 "loop5" blank_disk unknown_state))) =
  GRUB_DISK_SIZE_UNKNOWN.
Proof. reflexivity. Qed.

(** Outside the range of [grub_size_t] the sum of the lengths wraps around:
    with 32 bits, three files of 2 GiB count as one. *)
Example open_sum_wraps :
  total_sectors (snd (fst (grub_loopbackx_open 32 9 6 "loop6" blank_disk big_state))) =
  2 ^ 22.
Proof. reflexivity. Qed.

(** ** Memory *)

Lemma delivered_length (m : memory) (buf : Z) (n : nat) :
  length (delivered m buf n) = n.
Proof. unfold delivered. now rewrite length_map, length_seq. Qed.

Lemma delivered_ext (m m' : memory) (buf : Z) (n : nat) :
  (forall a, buf <= a < buf + Z.of_nat n -> m' a = m a) ->
  delivered m' buf n = delivered m buf n.
Proof.
  intros H. unfold delivered. apply map_ext_in. intros k Hk.
  apply in_seq in Hk. apply H. lia.
Qed.

Lemma delivered_S (m : memory) (buf : Z) (n : nat) :
  delivered m buf (S n) = m buf :: delivered m (buf + 1) n.
Proof.
  unfold delivered. cbn [seq map]. rewrite Z.add_0_r. f_equal.
  rewrite <- seq_shift, map_map. apply map_ext. intros k. f_equal. lia.
Qed.

Lemma delivered_app (m : memory) (buf : Z) (a b : nat) :
  delivered m buf (a + b) =
  delivered m buf a ++ delivered m (buf + Z.of_nat a) b.
Proof.
  revert buf. induction a as [|a IH]; intros buf.
  - cbn [Nat.add]. rewrite Z.add_0_r. reflexivity.
  - cbn [Nat.add]. rewrite !delivered_S, IH. cbn [app]. do 3 f_equal. lia.
Qed.

Lemma delivered_nth (m : memory) (n : nat) :
  forall (buf : Z) (k : nat) (d : byte),
    (k < n)%nat -> nth k (delivered m buf n) d = m (buf + Z.of_nat k).
Proof.
  induction n as [|n IH]; intros buf k d Hk; [lia|].
  rewrite delivered_S. destruct k as [|k]; cbn [nth].
  - now rewrite Z.add_0_r.
  - rewrite IH by lia. f_equal. lia.
Qed.

Lemma delivered_write_same (m : memory) (buf : Z) (bytes : list byte) :
  delivered (mem_write m buf bytes) buf (length bytes) = bytes.
Proof.
  apply nth_ext with (d := x00) (d' := x00).
  - apply delivered_length.
  - intros k Hk. rewrite delivered_length in Hk.
    rewrite delivered_nth by assumption. unfold mem_write.
    destruct (Z.leb_spec buf (buf + Z.of_nat k)); [|lia].
    destruct (Z.ltb_spec (buf + Z.of_nat k) (buf + Z.of_nat (length bytes))); [|lia].
    cbn [andb]. f_equal. lia.
Qed.

Lemma delivered_write_apart (m : memory) (addr : Z) (bytes : list byte)
    (buf : Z) (n : nat) :
  buf + Z.of_nat n <= addr \/ addr + Z.of_nat (length bytes) <= buf ->
  delivered (mem_write m addr bytes) buf n = delivered m buf n.
Proof.
  intros H. apply delivered_ext. intros a Ha. unfold mem_write.
  destruct (Z.leb_spec addr a); [|reflexivity].
  destruct (Z.ltb_spec a (addr + Z.of_nat (length bytes))); [lia|reflexivity].
Qed.

Lemma delivered_memset_same (m : memory) (buf : Z) (c : byte) (n : nat) :
  delivered (grub_memset m buf c (Z.of_nat n)) buf n = repeat c n.
Proof.
  apply nth_ext with (d := c) (d' := c).
  - now rewrite delivered_length, repeat_length.
  - intros k Hk. rewrite delivered_length in Hk.
    rewrite nth_repeat, delivered_nth by assumption. unfold grub_memset.
    destruct (Z.leb_spec buf (buf + Z.of_nat k)); [|lia].
    destruct (Z.ltb_spec (buf + Z.of_nat k) (buf + Z.of_nat n)); [|lia].
    reflexivity.
Qed.

Lemma delivered_memset_apart (m : memory) (addr : Z) (c : byte) (len : Z)
    (buf : Z) (n : nat) :
  buf + Z.of_nat n <= addr \/ addr + len <= buf ->
  delivered (grub_memset m addr c len) buf n = delivered m buf n.
Proof.
  intros H. apply delivered_ext. intros a Ha. unfold grub_memset.
  destruct (Z.leb_spec addr a); [|reflexivity].
  destruct (Z.ltb_spec a (addr + len)); [lia|reflexivity].
Qed.

(** ** The chain walk *)

Lemma chain_walk_done (size_bits : Z) (fl : list grub_file) (s : read_state) :
  rd_total s = 0 -> chain_walk size_bits fl s = (fl, s).
Proof. intros H. destruct fl; cbn [chain_walk]; [reflexivity|]. now rewrite H. Qed.

Lemma chain_walk_skip (size_bits : Z) (f : grub_file) (rest : list grub_file)
    (s : read_state) :
  rd_total s <> 0 ->
  file_size f <= rd_spos s ->
  chain_walk size_bits (f :: rest) s =
  let (rest', s') :=
    chain_walk size_bits rest
      (mk_read (rd_buf s) (rd_total s)
               (to_size size_bits (to_u64 (rd_spos s - file_size f)))
               (rd_mem s) (rd_err s)) in
  (f :: rest', s').
Proof.
  intros Ht Hs. cbn [chain_walk].
  destruct (Z.eqb_spec (rd_total s) 0); [contradiction|].
  destruct (Z.ltb_spec (rd_spos s) (file_size f)); [lia|reflexivity].
Qed.

Lemma chain_walk_read (size_bits : Z) (f : grub_file) (rest : list grub_file)
    (s : read_state) :
  rd_total s <> 0 ->
  rd_spos s < file_size f ->
  chain_walk size_bits (f :: rest) s =
  let n := read_count size_bits f s in
  let '(f', m, e) :=
    grub_file_read (grub_file_seek f (rd_spos s)) (rd_mem s) (rd_buf s) n
                   (rd_err s) in
  let (rest', s') :=
    chain_walk size_bits rest
      (mk_read (rd_buf s + n) (to_size size_bits (rd_total s - n)) 0 m e) in
  (f' :: rest', s').
Proof.
  intros Ht Hs. cbn [chain_walk].
  destruct (Z.eqb_spec (rd_total s) 0); [contradiction|].
  destruct (Z.ltb_spec (rd_spos s) (file_size f)); [reflexivity|lia].
Qed.

(** The walk over a chain is the walk over its first part followed by the
    walk over the rest. *)
Lemma chain_walk_app (size_bits : Z) (l1 l2 : list grub_file) :
  forall s,
    chain_walk size_bits (l1 ++ l2) s =
    let (l1', s1) := chain_walk size_bits l1 s in
    let (l2', s2) := chain_walk size_bits l2 s1 in
    (l1' ++ l2', s2).
Proof.
  induction l1 as [|f l1 IH]; intros s.
  - cbn [app chain_walk]. now destruct (chain_walk size_bits l2 s).
  - cbn [app chain_walk]. destruct (rd_total s =? 0) eqn:Ht.
    + apply Z.eqb_eq in Ht. now rewrite (chain_walk_done _ l2 s Ht).
    + destruct (rd_spos s <? file_size f).
      * destruct (grub_file_read _ _ _ _ _) as [[f' m] e]. rewrite IH.
        destruct (chain_walk size_bits l1 _) as [l1' s1].
        now destruct (chain_walk size_bits l2 s1).
      * rewrite IH. destruct (chain_walk size_bits l1 _) as [l1' s1].
        now destruct (chain_walk size_bits l2 s1).
Qed.

(** Inside a file, at a cursor that is not zero, the walk asks for the rest
    of the file, whatever the number of bytes still needed. *)
Lemma read_count_inside (size_bits : Z) (f : grub_file) (s : read_state) :
  size_bits <= 64 ->
  0 < rd_spos s < file_size f ->
  rd_spos s + file_size f < 2 ^ 64 ->
  file_size f - rd_spos s < 2 ^ size_bits ->
  read_count size_bits f s = file_size f - rd_spos s.
Proof.
  intros Hb Hs H64 Hfit. unfold read_count, to_size, to_u64.
  rewrite (wrap_small 64 (rd_spos s + file_size f)) by lia.
  destruct (Z.gtb_spec (rd_spos s + file_size f) (file_size f)); [|lia].
  rewrite (wrap_small 64), wrap_small; lia.
Qed.

(** At the start of a file the walk asks for all the bytes still needed,
    whatever the length of the file. *)
Lemma read_count_start (size_bits : Z) (f : grub_file) (s : read_state) :
  rd_spos s = 0 ->
  0 <= file_size f < 2 ^ 64 ->
  read_count size_bits f s = rd_total s.
Proof.
  intros Hs Hf. unfold read_count, to_u64. rewrite Hs, Z.add_0_l.
  rewrite wrap_small by lia.
  destruct (Z.gtb_spec (file_size f) (file_size f)); [lia|reflexivity].
Qed.

(** A read of a file whose reads do not fail. *)
Lemma grub_file_read_sound (f : grub_file) (c : Z) (m : memory) (buf n : Z)
    (err : grub_error_state) :
  file_fault f = None ->
  grub_file_read (grub_file_seek f c) m buf n err =
  (let bytes := firstn (Z.to_nat n) (skipn (Z.to_nat c) (file_data f)) in
   (mk_file (file_fd f) (file_size f) (c + Z.of_nat (length bytes))
            (file_data f) (file_fault f),
    mem_write m buf bytes, err)).
Proof. intros H. unfold grub_file_read, grub_file_seek. cbn. now rewrite H. Qed.

(** Files that lie before the cursor are passed over: each takes its length
    off the cursor. *)
Lemma chain_walk_skip_prefix (size_bits : Z) (pre : list grub_file) :
  size_bits <= 64 ->
  Forall size_known pre ->
  forall s,
    rd_total s <> 0 ->
    chain_length pre <= rd_spos s < 2 ^ size_bits ->
    chain_walk size_bits pre s =
    (pre, mk_read (rd_buf s) (rd_total s) (rd_spos s - chain_length pre)
                  (rd_mem s) (rd_err s)).
Proof.
  intros Hb. induction 1 as [|f pre Hf Hpre IH]; intros s Ht Hs.
  - change (chain_length []) with 0. cbn. rewrite Z.sub_0_r. now destruct s.
  - rewrite chain_length_cons in Hs.
    pose proof (chain_length_nonneg pre Hpre). unfold size_known in Hf.
    assert (0 <= size_bits) as Hnn.
    { destruct (Z.le_gt_cases 0 size_bits); [assumption|].
      rewrite Z.pow_neg_r in Hs; lia. }
    pose proof (pow2_le_64 size_bits ltac:(lia)).
    rewrite chain_walk_skip by lia. unfold to_size, to_u64.
    rewrite (wrap_small 64), wrap_small by lia.
    rewrite IH by (cbn; lia). cbn. rewrite chain_length_cons.
    do 2 f_equal. lia.
Qed.

(** The step of the walk at a cursor inside a file, not at its start: the
    rest of the file is read, however many bytes are still needed. *)
Lemma chain_walk_inside (size_bits : Z) (f : grub_file)
    (rest : list grub_file) (buf total c : Z) (m : memory)
    (err : grub_error_state) :
  size_bits <= 64 ->
  sound_file f ->
  total <> 0 ->
  0 < c < file_size f ->
  c + file_size f < 2 ^ 64 ->
  file_size f - c < 2 ^ size_bits ->
  chain_walk size_bits (f :: rest) (mk_read buf total c m err) =
  let (rest', s') :=
    chain_walk size_bits rest
      (mk_read (buf + (file_size f - c))
               (to_size size_bits (total - (file_size f - c))) 0
               (mem_write m buf (skipn (Z.to_nat c) (file_data f))) err) in
  (mk_file (file_fd f) (file_size f) (file_size f) (file_data f)
           (file_fault f) :: rest', s').
Proof.
  intros Hb [Hd Hf] Ht Hc H64 Hfit.
  rewrite chain_walk_read by (cbn; lia). cbv zeta.
  rewrite read_count_inside by (cbn; lia).
  rewrite grub_file_read_sound by assumption. cbv zeta.
  cbn [rd_spos rd_total rd_buf rd_mem rd_err].
  rewrite firstn_all2 by (rewrite length_drop; lia).
  rewrite length_drop.
  replace (c + Z.of_nat (length (file_data f) - Z.to_nat c)) with (file_size f) by lia.
  reflexivity.
Qed.

(** The step of the walk at the start of a file: all the bytes still needed
    are asked of this one file, however long it is, and the walk is over. *)
Lemma chain_walk_start (size_bits : Z) (f : grub_file)
    (rest : list grub_file) (buf total : Z) (m : memory)
    (err : grub_error_state) :
  sound_file f ->
  total <> 0 ->
  0 < file_size f < 2 ^ 64 ->
  chain_walk size_bits (f :: rest) (mk_read buf total 0 m err) =
  (mk_file (file_fd f) (file_size f)
           (Z.of_nat (length (firstn (Z.to_nat total) (file_data f))))
           (file_data f) (file_fault f) :: rest,
   mk_read (buf + total) 0 0
           (mem_write m buf (firstn (Z.to_nat total) (file_data f))) err).
Proof.
  intros [Hd Hf] Ht Hs.
  rewrite chain_walk_read by (cbn; lia). cbv zeta.
  rewrite read_count_start by (cbn; lia).
  rewrite grub_file_read_sound by assumption. cbv zeta.
  cbn [rd_spos rd_total rd_buf rd_mem rd_err].
  rewrite Z.sub_diag. unfold to_size, wrap. rewrite Zmod_0_l.
  rewrite chain_walk_done by reflexivity.
  change (Z.to_nat 0) with 0%nat. cbn [skipn]. reflexivity.
Qed.

Lemma pow2_ge_32 (bits : Z) : 5 <= bits -> 32 <= 2 ^ bits.
Proof.
  intros H. change 32 with (2 ^ 5). apply Z.pow_le_mono_r; lia.
Qed.

(** C5: with two files of 10 and 20 bytes and byte-sized sectors, the read
    of the byte range [5, 25) succeeds and delivers the bytes [5, 10) of the
    first file followed by the bytes [0, 15) of the second. *)
Theorem read_across_boundary (size_bits : Z) (dev : grub_loopbackx)
    (f1 f2 : grub_file) (buf : Z) (m : memory) (err : grub_error_state) :
  5 <= size_bits <= 64 ->
  files dev = [f1; f2] ->
  file_size f1 = 10 -> sound_file f1 ->
  file_size f2 = 20 -> sound_file f2 ->
  grub_errno err = GRUB_ERR_NONE ->
  let r := grub_loopbackx_read size_bits 0 dev 5 20 buf m err in
  rr_ret r = GRUB_ERR_NONE /\
  delivered (rr_mem r) buf 20 =
    byte_range (file_data f1) 5 5 ++ byte_range (file_data f2) 0 15.
Proof.
  intros Hb Hfiles Hs1 Hf1 Hs2 Hf2 Herr.
  pose proof (pow2_ge_32 size_bits ltac:(lia)) as H32.
  pose proof (pow2_le_64 size_bits ltac:(lia)) as H64.
  set (b1 := skipn (Z.to_nat 5) (file_data f1)).
  set (b2 := firstn (Z.to_nat 15) (file_data f2)).
  assert (length b1 = 5%nat) as L1.
  { subst b1. destruct Hf1 as [Hd1 _]. rewrite length_drop. lia. }
  assert (length b2 = 15%nat) as L2.
  { subst b2. destruct Hf2 as [Hd2 _]. rewrite length_take. lia. }
  assert (exists fl,
            grub_loopbackx_read size_bits 0 dev 5 20 buf m err =
            mk_result GRUB_ERR_NONE fl
              (mem_write (mem_write m buf b1) (buf + 5) b2) err) as [fl Hr].
  { unfold grub_loopbackx_read. rewrite Hfiles, !Z.shiftl_0_r.
    unfold to_size, to_u64. rewrite (wrap_small 64 5), !wrap_small by lia.
    rewrite chain_walk_inside by (try assumption; lia).
    rewrite Hs1. change (10 - 5) with 5. change (20 - 5) with 15.
    unfold to_size. rewrite wrap_small by lia.
    rewrite chain_walk_start by (try assumption; lia).
    cbn [rd_err rd_total rd_mem rd_buf].
    destruct (decide (grub_errno err = GRUB_ERR_NONE)); [|contradiction].
    eexists. reflexivity. }
  intros r. subst r. rewrite Hr. cbn [rr_ret rr_mem]. split; [reflexivity|].
  change 20%nat with (5 + 15)%nat. rewrite delivered_app.
  unfold byte_range. cbn [skipn]. f_equal.
  - rewrite delivered_write_apart by lia.
    rewrite <- L1 at 1. rewrite delivered_write_same. subst b1.
    rewrite firstn_all2; [reflexivity|]. change (Z.to_nat 5) with 5%nat in L1. lia.
  - rewrite <- L2 at 1. change (Z.of_nat 5) with 5. apply delivered_write_same.
Qed.

Lemma read_across_boundary_witness :
  (5 <= 64 <= 64 /\ files sample_dev = [sample_file_a; sample_file_b] /\
   file_size sample_file_a = 10 /\ sound_file sample_file_a /\
   file_size sample_file_b = 20 /\ sound_file sample_file_b /\
   grub_errno no_error = GRUB_ERR_NONE) /\
  let r := grub_loopbackx_read 64 0 sample_dev 5 20 0 blank_memory no_error in
  rr_ret r = GRUB_ERR_NONE /\
  delivered (rr_mem r) 0 20 =
    byte_range (file_data sample_file_a) 5 5 ++
    byte_range (file_data sample_file_b) 0 15.
Proof.
  assert (sound_file sample_file_a) as Ha by (split; reflexivity).
  assert (sound_file sample_file_b) as Hb by (split; reflexivity).
  split; [repeat split; (lia || reflexivity)|].
  apply (read_across_boundary 64 sample_dev sample_file_a sample_file_b 0
           blank_memory no_error);
    try (lia || reflexivity || assumption).
Defined.

(** Of the 15 bytes of the range [5, 20) over one file of 10 bytes, 5 come
    from the file and the other 10 (not 5) are zero bytes. *)
Lemma zero_fill_tail_is_ten_bytes :
  let r := grub_loopbackx_read 64 0 single_dev 5 15 0 blank_memory no_error in
  rr_ret r = GRUB_ERR_NONE /\
  delivered (rr_mem r) 0 15 =
    byte_range (file_data sample_file_a) 5 5 ++ repeat x00 10 /\
  delivered (rr_mem r) 0 15 <>
    byte_range (file_data sample_file_a) 5 5 ++ repeat x00 5.
Proof. cbv zeta. split; [reflexivity|]. split; [reflexivity|discriminate]. Qed.

(** The byte position and byte count of a request that fits [grub_size_t]. *)
Lemma request_bytes (size_bits sector_bits sector size : Z) :
  0 <= sector_bits -> size_bits <= 64 ->
  0 <= sector -> 0 <= size ->
  sector * 2 ^ sector_bits < 2 ^ size_bits ->
  size * 2 ^ sector_bits < 2 ^ size_bits ->
  to_size size_bits (to_u64 (Z.shiftl sector sector_bits)) = sector * 2 ^ sector_bits /\
  to_size size_bits (Z.shiftl size sector_bits) = size * 2 ^ sector_bits.
Proof.
  intros Hsb Hb Hsec Hsize Hf1 Hf2.
  assert (0 < 2 ^ sector_bits) by (apply Z.pow_pos_nonneg; lia).
  assert (0 <= size_bits) as Hnn.
  { destruct (Z.le_gt_cases 0 size_bits); [assumption|].
    rewrite (Z.pow_neg_r 2 size_bits) in Hf1; nia. }
  pose proof (pow2_le_64 size_bits ltac:(lia)).
  rewrite !Z.shiftl_mul_pow2 by assumption.
  unfold to_size, to_u64. rewrite (wrap_small 64), !wrap_small by nia.
  split; reflexivity.
Qed.

(** Where the fill is done: a read with no error pending whose range starts
    inside the last file of the chain, past that file's first byte, or at or
    after the end of the chain, and ends after the end of the chain,
    succeeds; it delivers the bytes of the last file from the start of the
    range on and fills all the rest of the requested bytes with zero
    bytes. *)
Lemma read_zero_fills_tail (size_bits sector_bits : Z)
    (dev : grub_loopbackx) (pre : list grub_file) (f : grub_file)
    (sector size buf : Z) (m : memory) (err : grub_error_state) :
  0 <= sector_bits -> size_bits <= 64 ->
  files dev = pre ++ [f] ->
  Forall size_known pre -> size_known f -> sound_file f ->
  grub_errno err = GRUB_ERR_NONE ->
  0 <= sector -> 0 <= size ->
  sector * 2 ^ sector_bits < 2 ^ size_bits ->
  size * 2 ^ sector_bits < 2 ^ size_bits ->
  chain_length pre < sector * 2 ^ sector_bits ->
  chain_length (pre ++ [f]) < sector * 2 ^ sector_bits + size * 2 ^ sector_bits ->
  sector * 2 ^ sector_bits - chain_length pre + file_size f < 2 ^ 64 ->
  let r := grub_loopbackx_read size_bits sector_bits dev sector size buf m err in
  let tail := skipn (Z.to_nat (sector * 2 ^ sector_bits - chain_length pre))
                    (file_data f) in
  rr_ret r = GRUB_ERR_NONE /\
  delivered (rr_mem r) buf (Z.to_nat (size * 2 ^ sector_bits)) =
    tail ++ repeat x00 (Z.to_nat (size * 2 ^ sector_bits) - length tail).
Proof.
  intros Hsb Hb Hfiles Hpre Hkf Hsf Herr Hsec Hsize Hf1 Hf2 Hin Hpast H64.
  destruct (request_bytes size_bits sector_bits sector size) as [Es Et];
    try assumption.
  set (spos := sector * 2 ^ sector_bits) in *.
  set (total := size * 2 ^ sector_bits) in *.
  pose proof (chain_length_nonneg pre Hpre) as Hpn.
  rewrite chain_length_app, chain_length_cons in Hpast.
  change (chain_length []) with 0 in Hpast.
  assert (0 <= total) as Htn.
  { subst total. apply Z.mul_nonneg_nonneg; [lia|]. apply Z.pow_nonneg. lia. }
  destruct Hsf as [Hd Hff]. unfold size_known in Hkf.
  intros r tail. subst r. unfold grub_loopbackx_read.
  rewrite Es, Et, Hfiles.
  destruct (Z.eq_dec total 0) as [H0|H0].
  { rewrite chain_walk_done by assumption. cbn [rd_err rd_total rd_mem].
    destruct (decide (grub_errno err = GRUB_ERR_NONE)); [|contradiction].
    cbn [rr_ret rr_mem]. split; [reflexivity|]. rewrite H0.
    change (0 >? 0) with false. cbv iota. change (Z.to_nat 0) with 0%nat.
    cbn [delivered seq map Nat.sub repeat]. rewrite app_nil_r.
    subst tail. symmetry. apply skipn_all2. lia. }
  rewrite chain_walk_app.
  rewrite chain_walk_skip_prefix by (try assumption; cbn; lia).
  cbn [rd_buf rd_total rd_spos rd_mem rd_err].
  set (c := spos - chain_length pre) in *.
  destruct (Z.lt_ge_cases c (file_size f)) as [Hc|Hc].
  - rewrite chain_walk_inside by (try assumption; try split; try assumption; lia).
    cbn [chain_walk]. unfold to_size. rewrite wrap_small by lia.
    cbn [rd_err rd_total rd_mem rd_buf].
    destruct (decide (grub_errno err = GRUB_ERR_NONE)); [|contradiction].
    cbn [rr_ret rr_mem]. split; [reflexivity|].
    destruct (Z.gtb_spec (total - (file_size f - c)) 0); [|lia].
    assert (length tail = Z.to_nat (file_size f - c)) as Ltail.
    { subst tail. rewrite length_drop. lia. }
    replace (Z.to_nat total)
      with (length tail + (Z.to_nat total - length tail))%nat at 1 by lia.
    rewrite delivered_app. f_equal.
    + rewrite delivered_memset_apart by lia. apply delivered_write_same.
    + replace (buf + Z.of_nat (length tail)) with (buf + (file_size f - c)) by lia.
      replace (total - (file_size f - c))
        with (Z.of_nat (Z.to_nat total - length tail)) by lia.
      apply delivered_memset_same.
  - rewrite chain_walk_skip by (cbn; lia). cbn [chain_walk].
    cbn [rd_err rd_total rd_mem rd_buf].
    destruct (decide (grub_errno err = GRUB_ERR_NONE)); [|contradiction].
    cbn [rr_ret rr_mem]. split; [reflexivity|].
    destruct (Z.gtb_spec total 0); [|lia].
    assert (tail = []) as ->.
    { subst tail. apply skipn_all2. lia. }
    cbn [app length]. rewrite Nat.sub_0_r.
    rewrite <- (Z2Nat.id total) at 1 by lia. apply delivered_memset_same.
Qed.

Lemma read_zero_fills_tail_witness :
  (chain_length [] < 5 * 2 ^ 0 /\
   chain_length ([] ++ [sample_file_a]) < 5 * 2 ^ 0 + 15 * 2 ^ 0) /\
  let r := grub_loopbackx_read 64 0 single_dev 5 15 0 blank_memory no_error in
  let tail := skipn (Z.to_nat (5 * 2 ^ 0 - chain_length [])) (file_data sample_file_a) in
  rr_ret r = GRUB_ERR_NONE /\
  delivered (rr_mem r) 0 (Z.to_nat (15 * 2 ^ 0)) =
    tail ++ repeat x00 (Z.to_nat (15 * 2 ^ 0) - length tail).
Proof.
  split; [split; reflexivity|].
  apply (read_zero_fills_tail 64 0 single_dev [] sample_file_a 5 15 0
           blank_memory no_error);
    [lia | lia | reflexivity | exact (List.Forall_nil _) | unfold size_known, GRUB_FILE_SIZE_UNKNOWN; simpl; lia
    | split; reflexivity | reflexivity | lia | lia | reflexivity | reflexivity
    | reflexivity | reflexivity | reflexivity].
Defined.

(** C2 fails on the code: a read with no error pending that starts at the
    first byte of the last file of the chain and asks for more bytes than
    that file has succeeds, but the tail of the buffer is not filled with
    zero bytes: after the bytes of the file the buffer holds what it held
    before the call, and no address from the end of those bytes on is
    written.  (The walk asks the file for all the bytes still needed and
    counts them as read, so that nothing is left to fill.) *)
Theorem read_leaves_tail_unfilled (size_bits sector_bits : Z)
    (dev : grub_loopbackx) (pre : list grub_file) (f : grub_file)
    (sector size buf : Z) (m : memory) (err : grub_error_state) :
  0 <= sector_bits -> size_bits <= 64 ->
  files dev = pre ++ [f] ->
  Forall size_known pre ->
  sound_file f -> 0 < file_size f < 2 ^ 64 ->
  grub_errno err = GRUB_ERR_NONE ->
  0 <= sector -> 0 <= size ->
  sector * 2 ^ sector_bits < 2 ^ size_bits ->
  size * 2 ^ sector_bits < 2 ^ size_bits ->
  sector * 2 ^ sector_bits = chain_length pre ->
  file_size f < size * 2 ^ sector_bits ->
  let r := grub_loopbackx_read size_bits sector_bits dev sector size buf m err in
  rr_ret r = GRUB_ERR_NONE /\
  delivered (rr_mem r) buf (Z.to_nat (size * 2 ^ sector_bits)) =
    file_data f ++
    delivered m (buf + file_size f)
              (Z.to_nat (size * 2 ^ sector_bits - file_size f)) /\
  (forall a, buf + file_size f <= a -> rr_mem r a = m a).
Proof.
  intros Hsb Hb Hfiles Hpre Hsf Hf Herr Hsec Hsize Hf1 Hf2 Hstart Hpast.
  destruct (request_bytes size_bits sector_bits sector size) as [Es Et];
    try assumption.
  set (spos := sector * 2 ^ sector_bits) in *.
  set (total := size * 2 ^ sector_bits) in *.
  pose proof Hsf as [Hd _].
  assert (firstn (Z.to_nat total) (file_data f) = file_data f) as Hall
    by (apply firstn_all2; lia).
  assert (grub_loopbackx_read size_bits sector_bits dev sector size buf m err =
          mk_result GRUB_ERR_NONE
            (pre ++ [mk_file (file_fd f) (file_size f)
                       (Z.of_nat (length (file_data f))) (file_data f)
                       (file_fault f)])
            (mem_write m buf (file_data f)) err) as Hr.
  { unfold grub_loopbackx_read.
    rewrite Es, Et, Hfiles, chain_walk_app.
    rewrite chain_walk_skip_prefix by (try assumption; cbn; lia).
    cbn [rd_buf rd_total rd_spos rd_mem rd_err].
    rewrite Hstart, Z.sub_diag.
    rewrite chain_walk_start by (try assumption; lia).
    cbn [rd_err rd_total rd_mem rd_buf].
    destruct (decide (grub_errno err = GRUB_ERR_NONE)); [|contradiction].
    change (0 >? 0) with false. cbv iota. now rewrite Hall. }
  intros r. subst r. rewrite Hr. cbn [rr_ret rr_mem].
  split; [reflexivity|]. split.
  - replace (Z.to_nat total)
      with (length (file_data f) + Z.to_nat (total - file_size f))%nat by lia.
    rewrite delivered_app. f_equal.
    + apply delivered_write_same.
    + rewrite <- Hd. apply delivered_write_apart. lia.
  - intros a Ha. unfold mem_write.
    destruct (Z.ltb_spec a (buf + Z.of_nat (length (file_data f)))); [lia|].
    now rewrite andb_false_r.
Qed.

(** Two sectors of 512 bytes over one file of 1000 bytes, into a buffer that
    holds [0xff]: the last 24 bytes stay [0xff].  Likewise the range
    [0, 20) over one file of 10 bytes: the last 10 bytes stay [0xff]. *)
Lemma read_leaves_tail_unfilled_witness :
  ((files short_dev = [] ++ [short_file] /\
    0 * 2 ^ 9 = chain_length [] /\
    file_size short_file < 2 * 2 ^ 9) /\
   let r := grub_loopbackx_read 64 9 short_dev 0 2 0 blank_memory no_error in
   rr_ret r = GRUB_ERR_NONE /\
   delivered (rr_mem r) 0 1024 = repeat x43 1000 ++ repeat xff 24 /\
   delivered (rr_mem r) 0 1024 <> repeat x43 1000 ++ repeat x00 24 /\
   (forall a, 1000 <= a -> rr_mem r a = xff)) /\
  ((files single_dev = [] ++ [sample_file_a] /\
    0 * 2 ^ 0 = chain_length [] /\
    file_size sample_file_a < 20 * 2 ^ 0) /\
   let r := grub_loopbackx_read 64 0 single_dev 0 20 0 blank_memory no_error in
   rr_ret r = GRUB_ERR_NONE /\
   delivered (rr_mem r) 0 20 = ten_bytes ++ repeat xff 10 /\
   delivered (rr_mem r) 0 20 <> ten_bytes ++ repeat x00 10 /\
   (forall a, 10 <= a -> rr_mem r a = xff)).
Proof.
  split.
  - split; [repeat split|].
    destruct (read_leaves_tail_unfilled 64 9 short_dev [] short_file 0 2 0
                blank_memory no_error)
      as (H1 & H2 & H3);
      [lia | lia | reflexivity | exact (List.Forall_nil _)
      | split; reflexivity | cbn; lia | reflexivity | lia | lia
      | reflexivity | reflexivity | reflexivity | reflexivity |].
    cbv zeta. split; [exact H1|].
    change (Z.to_nat (2 * 2 ^ 9)) with 1024%nat in H2.
    split; [exact H2|]. split; [|exact H3].
    rewrite H2. intros E. apply (f_equal (fun l => nth 1000 l x00)) in E.
    vm_compute in E. discriminate E.
  - split; [repeat split|].
    destruct (read_leaves_tail_unfilled 64 0 single_dev [] sample_file_a 0 20 0
                blank_memory no_error)
      as (H1 & H2 & H3);
      [lia | lia | reflexivity | exact (List.Forall_nil _)
      | split; reflexivity | cbn; lia | reflexivity | lia | lia
      | reflexivity | reflexivity | reflexivity | reflexivity |].
    cbv zeta. split; [exact H1|].
    change (Z.to_nat (20 * 2 ^ 0)) with 20%nat in H2.
    split; [exact H2|]. split; [rewrite H2; discriminate|exact H3].
Defined.

(** C1 fails on the code: the walk does not ask a file for the smaller of
    the bytes still needed and the bytes the file has left.  At the start of
    a file it asks for all the bytes still needed: the read of [0, 25) over
    files of 10 and 20 bytes gets the 10 bytes of the first file, never
    reads the second and leaves the other 15 bytes of the buffer as they
    were (and likewise with sectors of 512 bytes).  Inside a file it asks
    for the rest of the file: the read of [5, 10) over a file of 20 bytes
    stores 15 bytes, 10 of them after the end of the buffer, and the count
    of bytes still needed wraps around. *)
Theorem read_is_not_the_byte_range :
  (let r := grub_loopbackx_read 64 0 sample_dev 0 25 0 blank_memory no_error in
   rr_ret r = GRUB_ERR_NONE /\
   delivered (rr_mem r) 0 25 = ten_bytes ++ repeat xff 15 /\
   delivered (rr_mem r) 0 25 <> byte_range (logical_disk (files sample_dev)) 0 25 /\
   map file_offset (rr_files r) = [10; 0]) /\
  (let r := grub_loopbackx_read 64 9 sector_dev 0 4 0 blank_memory no_error in
   rr_ret r = GRUB_ERR_NONE /\
   delivered (rr_mem r) 0 2048 = repeat x41 1024 ++ repeat xff 1024 /\
   delivered (rr_mem r) 0 2048 <> byte_range (logical_disk (files sector_dev)) 0 2048 /\
   map file_offset (rr_files r) = [1024; 0]) /\
  (let r := grub_loopbackx_read 64 0 second_dev 5 5 0 blank_memory no_error in
   rr_ret r = GRUB_ERR_NONE /\
   read_count 64 sample_file_b (mk_read 0 5 5 blank_memory no_error) = 15 /\
   delivered (rr_mem r) 5 10 = byte_range twenty_bytes 10 10 /\
   map file_offset (rr_files r) = [20] /\
   rr_mem r 15 = x00).
Proof.
  split; [|split].
  - cbv zeta. repeat split; try reflexivity. discriminate.
  - cbv zeta. repeat split; try (vm_compute; reflexivity).
    vm_compute. discriminate.
  - cbv zeta. repeat split; vm_compute; reflexivity.
Qed.

(** ** Errors during the walk *)

(** The error state after a read: that of the fault, or as before. *)
Lemma grub_file_read_err (f : grub_file) (m : memory) (buf n : Z)
    (err : grub_error_state) :
  snd (grub_file_read f m buf n err) =
  match file_fault f with Some e => e | None => err end.
Proof. unfold grub_file_read. now destruct (file_fault f). Qed.

(** A failing read stores nothing and leaves its error. *)
Lemma grub_file_read_fails (f : grub_file) (c : Z) (m : memory) (buf n : Z)
    (err e : grub_error_state) :
  file_fault f = Some e ->
  grub_file_read (grub_file_seek f c) m buf n err = (grub_file_seek f c, m, e).
Proof. intros H. unfold grub_file_read. cbn [grub_file_seek file_fault]. now rewrite H. Qed.

(** An error that is pending stays pending to the end of the walk. *)
Lemma chain_walk_error_stays (size_bits : Z) (fl : list grub_file) :
  Forall fault_is_error fl ->
  forall s,
    grub_errno (rd_err s) <> GRUB_ERR_NONE ->
    grub_errno (rd_err (snd (chain_walk size_bits fl s))) <> GRUB_ERR_NONE.
Proof.
  induction 1 as [|f fl Hf Hfl IH]; intros s Hs; [exact Hs|].
  cbn [chain_walk]. destruct (rd_total s =? 0); [exact Hs|].
  destruct (rd_spos s <? file_size f).
  - pose proof (grub_file_read_err (grub_file_seek f (rd_spos s)) (rd_mem s)
                  (rd_buf s) (read_count size_bits f s) (rd_err s)) as He.
    destruct (grub_file_read _ _ _ _ _) as [[f' m'] e']. cbn [snd] in He.
    match goal with |- context [chain_walk size_bits fl ?s1] =>
      specialize (IH s1); destruct (chain_walk size_bits fl s1) as [rest' s'] end.
    cbn [snd] in *. apply IH. cbn [rd_err]. subst e'.
    cbn [grub_file_seek file_fault]. destruct (file_fault f) as [e|] eqn:Hff.
    + now apply Hf.
    + exact Hs.
  - match goal with |- context [chain_walk size_bits fl ?s1] =>
      specialize (IH s1); destruct (chain_walk size_bits fl s1) as [rest' s'] end.
    cbn [snd] in *. apply IH. exact Hs.
Qed.

(** Over files whose reads do not fail the error state does not change. *)
Lemma chain_walk_error_kept (size_bits : Z) (fl : list grub_file) :
  Forall (fun f => file_fault f = None) fl ->
  forall s, rd_err (snd (chain_walk size_bits fl s)) = rd_err s.
Proof.
  induction 1 as [|f fl Hf Hfl IH]; intros s; [reflexivity|].
  cbn [chain_walk]. destruct (rd_total s =? 0); [reflexivity|].
  destruct (rd_spos s <? file_size f).
  - pose proof (grub_file_read_err (grub_file_seek f (rd_spos s)) (rd_mem s)
                  (rd_buf s) (read_count size_bits f s) (rd_err s)) as He.
    destruct (grub_file_read _ _ _ _ _) as [[f' m'] e']. cbn [snd] in He.
    match goal with |- context [chain_walk size_bits fl ?s1] =>
      specialize (IH s1); destruct (chain_walk size_bits fl s1) as [rest' s'] end.
    cbn [snd] in *. rewrite IH. cbn [rd_err]. subst e'.
    cbn [grub_file_seek file_fault]. now rewrite Hf.
  - match goal with |- context [chain_walk size_bits fl ?s1] =>
      specialize (IH s1); destruct (chain_walk size_bits fl s1) as [rest' s'] end.
    cbn [snd] in *. now rewrite IH.
Qed.

(** C7, as stated, fails: when the read of the first file fails, the call
    does return that error, but the walk has gone on and read the second
    file: its 15 bytes are in the buffer and its offset has moved. *)
Lemma read_goes_on_after_failure :
  let r := grub_loopbackx_read 64 0 faulty_dev 5 20 0 blank_memory no_error in
  rr_ret r = GRUB_ERR_READ_ERROR /\
  map file_offset (rr_files r) = [5; 15] /\
  delivered (rr_mem r) 5 15 = byte_range twenty_bytes 0 15.
Proof. cbv zeta. repeat split; reflexivity. Qed.

(** C7, amended: when the read of a backing file fails, the walk is not cut
    short: it goes on over the files that follow, with the failed file's
    count taken off the bytes still needed and nothing stored for it.  Once
    the walk is over, the call returns the error then pending, which is not
    [GRUB_ERR_NONE] and is the error of the failed read when no later read
    fails, and it fills nothing with zero bytes. *)
Theorem read_returns_error_after_walk (size_bits sector_bits : Z)
    (dev : grub_loopbackx) (pre : list grub_file) (f : grub_file)
    (post : list grub_file) (sector size buf : Z) (m : memory)
    (err e : grub_error_state)
    (pre' post' : list grub_file) (s1 s2 : read_state) :
  files dev = pre ++ f :: post ->
  file_fault f = Some e ->
  grub_errno e <> GRUB_ERR_NONE ->
  Forall fault_is_error post ->
  chain_walk size_bits pre
    (mk_read buf (to_size size_bits (Z.shiftl size sector_bits))
       (to_size size_bits (to_u64 (Z.shiftl sector sector_bits))) m err) =
    (pre', s1) ->
  rd_total s1 <> 0 ->
  rd_spos s1 < file_size f ->
  chain_walk size_bits post
    (mk_read (rd_buf s1 + read_count size_bits f s1)
       (to_size size_bits (rd_total s1 - read_count size_bits f s1)) 0
       (rd_mem s1) e) = (post', s2) ->
  let r := grub_loopbackx_read size_bits sector_bits dev sector size buf m err in
  r = mk_result (grub_errno (rd_err s2))
        (pre' ++ grub_file_seek f (rd_spos s1) :: post') (rd_mem s2) (rd_err s2) /\
  rr_ret r <> GRUB_ERR_NONE /\
  (Forall (fun g => file_fault g = None) post -> rr_ret r = grub_errno e).
Proof.
  intros Hfiles Hff He Hpost Hpre Ht Hs Hwalk r.
  assert (grub_errno (rd_err s2) <> GRUB_ERR_NONE) as Herr2.
  { pose proof (chain_walk_error_stays size_bits post Hpost
                  (mk_read (rd_buf s1 + read_count size_bits f s1)
                     (to_size size_bits (rd_total s1 - read_count size_bits f s1))
                     0 (rd_mem s1) e) He) as H.
    rewrite Hwalk in H. exact H. }
  assert (r = mk_result (grub_errno (rd_err s2))
                (pre' ++ grub_file_seek f (rd_spos s1) :: post')
                (rd_mem s2) (rd_err s2)) as Hr.
  { subst r. unfold grub_loopbackx_read. rewrite Hfiles, chain_walk_app, Hpre.
    rewrite chain_walk_read by assumption. cbv zeta.
    rewrite (grub_file_read_fails f _ _ _ _ _ e Hff), Hwalk.
    destruct (decide (grub_errno (rd_err s2) = GRUB_ERR_NONE)); [contradiction|].
    reflexivity. }
  split; [exact Hr|]. rewrite Hr. cbn [rr_ret]. split; [exact Herr2|].
  intros Hnone. pose proof (chain_walk_error_kept size_bits post Hnone) as Hk.
  specialize (Hk (mk_read (rd_buf s1 + read_count size_bits f s1)
       (to_size size_bits (rd_total s1 - read_count size_bits f s1)) 0
       (rd_mem s1) e)).
  rewrite Hwalk in Hk. cbn [snd rd_err] in Hk. now rewrite Hk.
Qed.

Lemma read_returns_error_after_walk_witness :
  (file_fault faulty_file_a = Some read_failure /\
   grub_errno read_failure <> GRUB_ERR_NONE /\
   Forall fault_is_error [sample_file_b]) /\
  let r := grub_loopbackx_read 64 0 faulty_dev 5 20 0 blank_memory no_error in
  rr_ret r <> GRUB_ERR_NONE /\
  (Forall (fun g => file_fault g = None) [sample_file_b] ->
   rr_ret r = grub_errno read_failure).
Proof.
  assert (Forall fault_is_error [sample_file_b]) as Hpost.
  { repeat constructor. intros e He. discriminate He. }
  split; [repeat split; [discriminate|exact Hpost]|].
  set (s1 := mk_read 0 20 5 blank_memory no_error).
  set (after := chain_walk 64 [sample_file_b]
                  (mk_read (rd_buf s1 + read_count 64 faulty_file_a s1)
                     (to_size 64 (rd_total s1 - read_count 64 faulty_file_a s1))
                     0 (rd_mem s1) read_failure)).
  apply (read_returns_error_after_walk 64 0 faulty_dev [] faulty_file_a
           [sample_file_b] 5 20 0 blank_memory no_error read_failure
           [] (fst after) s1 (snd after));
    [reflexivity | reflexivity | discriminate | exact Hpost | reflexivity
    | discriminate | reflexivity | ].
  subst after. now destruct (chain_walk _ _ _).
Defined.

(** * More properties of the module *)

(** ** What one invocation does to the device list *)

(** One invocation leaves the device list and the open handles alone, or
    unlinks the named device and closes its files, or puts a new device with
    one to [MAXCHAINFILES] files, all of them just opened, at the head. *)
Lemma cmd_cases (long_bits : Z) (env : cmd_env) (delete_set : bool)
    (args : list string) (st : grub_state) :
  let ret := fst (grub_cmd_loopbackx long_bits env delete_set args st) in
  let st' := snd (grub_cmd_loopbackx long_bits env delete_set args st) in
  (loopback_list st' = loopback_list st /\ open_fds st' = open_fds st /\
   last_id st' = last_id st /\ (next_fd st <= next_fd st')%nat) \/
  (delete_set = true /\
   exists dev,
     find_device (hd ""%string args) (loopback_list st) = Some dev /\
     ret = GRUB_ERR_NONE /\
     loopback_list st' = unlink_device (hd ""%string args) (loopback_list st) /\
     open_fds st' = open_fds st ∖ fds (files dev) /\
     last_id st' = last_id st /\ next_fd st' = next_fd st /\
     grub_err st' = grub_err st) \/
  (delete_set = false /\
   exists newdev,
     find_device (hd ""%string args) (loopback_list st) = None /\
     ret = GRUB_ERR_NONE /\
     loopback_list st' = newdev :: loopback_list st /\
     devname newdev = hd ""%string args /\
     id newdev = last_id st /\
     length (files newdev) = length (tl args) /\
     1 <= Z.of_nat (length (files newdev)) <= MAXCHAINFILES /\
     open_fds st' = open_fds st ⊎ fds (files newdev) /\
     last_id st' = wrap long_bits (last_id st + 1) /\
     next_fd st' = (next_fd st + length (files newdev))%nat /\
     grub_err st' = grub_err st).
Proof.
  cbv zeta. unfold grub_cmd_loopbackx.
  destruct (Z.ltb_spec (Z.of_nat (length args)) 1) as [Ha1|Ha1].
  { left. cbn. auto. }
  destruct delete_set.
  { unfold delete_loopbackx.
    destruct (find_device (hd ""%string args) (loopback_list st)) as [dev|] eqn:Hf.
    - right. left. split; [reflexivity|]. exists dev. cbn [fst snd].
      destruct (close_descending_frame (files dev)
                  (mk_state (unlink_device (hd ""%string args) (loopback_list st))
                     (last_id st) (grub_err st) (next_fd st) (open_fds st)))
        as (H1 & H2 & H3 & H4 & H5).
      cbn in H1, H2, H3, H4, H5. auto 10.
    - left. cbn. auto. }
  destruct (Z.ltb_spec (Z.of_nat (length args)) 2) as [Ha2|Ha2].
  { left. cbn. auto. }
  destruct (Z.gtb_spec (Z.of_nat (length args)) (MAXCHAINFILES + 1)) as [Ha3|Ha3].
  { left. cbn. auto. }
  destruct (find_device (hd ""%string args) (loopback_list st)) eqn:Hf.
  { left. cbn. auto. }
  destruct (open_chain (env_fs env) (tl args) [] st) as [[ok opened] st1] eqn:Hrun.
  destruct (open_chain_frame _ _ _ _ _ _ _ Hrun)
    as (new & Hnew & H1 & H2 & H3 & H4 & H5).
  cbn [app] in Hnew. subst opened.
  assert (forall s,
            loopback_list s = loopback_list st1 -> last_id s = last_id st1 ->
            next_fd s = next_fd st1 -> open_fds s = open_fds st1 ->
            let s' := snd (create_fail new s) in
            loopback_list s' = loopback_list st /\ open_fds s' = open_fds st /\
            last_id s' = last_id st /\ (next_fd st <= next_fd s')%nat) as Hfail.
  { intros s L1 L2 L3 L4. pose proof (create_fail_frame new s) as F.
    destruct (create_fail new s) as [r s']. cbn [snd].
    destruct F as (_ & _ & F1 & F2 & F3 & F4).
    repeat split; try congruence; [|lia].
    rewrite F4, L4, H3. clear. multiset_solver. }
  destruct ok; [|left; now apply Hfail].
  destruct (env_malloc_ok env); cbn [negb]; [|left; now apply Hfail].
  destruct (env_strdup_ok env); cbn [negb]; [|left; now apply Hfail].
  right. right. split; [reflexivity|].
  exists (mk_loopbackx (hd ""%string args) new (last_id st)). cbn [fst snd].
  destruct (H5 eq_refl) as [H6 H7].
  assert (length (tl args) = (length args - 1)%nat) as Htl
    by (destruct args; cbn; lia).
  unfold MAXCHAINFILES in *.
  cbn [loopback_list last_id grub_err next_fd open_fds devname id files].
  rewrite H1, H2. repeat split; try congruence; try lia.
Qed.

(** ** Lookup and unlink *)

Lemma find_device_None (name : string) (l : list grub_loopbackx) :
  find_device name l = None <-> ~ In name (device_names l).
Proof.
  induction l as [|d l IH]; cbn; [tauto|].
  destruct (String.eqb_spec (devname d) name) as [E|E].
  - split; [discriminate|]. intros H. exfalso. apply H. now left.
  - rewrite IH. tauto.
Qed.

Lemma find_device_Some (name : string) (l : list grub_loopbackx)
    (dev : grub_loopbackx) :
  find_device name l = Some dev -> In dev l /\ devname dev = name.
Proof.
  induction l as [|d l IH]; cbn; [discriminate|].
  destruct (String.eqb_spec (devname d) name) as [E|E].
  - intros [= <-]. auto.
  - intros H. apply IH in H. tauto.
Qed.

Lemma unlink_device_names_incl (name : string) (l : list grub_loopbackx) :
  forall n, In n (device_names (unlink_device name l)) -> In n (device_names l).
Proof.
  induction l as [|d l IH]; cbn; [tauto|].
  destruct (String.eqb (devname d) name); cbn; intros n; [tauto|].
  intros [H|H]; [now left|right; now apply IH].
Qed.

Lemma unlink_device_NoDup (name : string) (l : list grub_loopbackx) :
  NoDup (device_names l) -> NoDup (device_names (unlink_device name l)).
Proof.
  induction l as [|d l IH]; cbn; [auto|].
  intros H. apply list.NoDup_cons in H. destruct H as [Hd Hl].
  destruct (String.eqb (devname d) name); [exact Hl|].
  cbn. apply list.NoDup_cons. split; [|now apply IH].
  intros Hin. apply Hd. apply list_elem_of_In.
  apply (unlink_device_names_incl name l). now apply list_elem_of_In.
Qed.

(** Where names are not repeated, the unlinked name is gone. *)
Lemma find_device_unlinked (name : string) (l : list grub_loopbackx) :
  NoDup (device_names l) -> find_device name (unlink_device name l) = None.
Proof.
  induction l as [|d l IH]; cbn; [reflexivity|].
  intros H. apply list.NoDup_cons in H. destruct H as [Hd Hl].
  destruct (String.eqb_spec (devname d) name) as [E|E].
  - apply find_device_None. intros Hin. apply Hd. rewrite E.
    now apply list_elem_of_In.
  - cbn. destruct (String.eqb_spec (devname d) name); [contradiction|].
    now apply IH.
Qed.

(** The lookup of any other name is as before the unlink. *)
Lemma find_device_unlink_other (name other : string) (l : list grub_loopbackx) :
  other <> name ->
  find_device other (unlink_device name l) = find_device other l.
Proof.
  intros Hne. induction l as [|d l IH]; cbn; [reflexivity|].
  destruct (String.eqb_spec (devname d) name) as [E|E].
  - destruct (String.eqb_spec (devname d) other) as [E'|E']; [congruence|reflexivity].
  - cbn. now rewrite IH.
Qed.

Lemma owned_fds_cons (d : grub_loopbackx) (l : list grub_loopbackx) :
  owned_fds (d :: l) = fds (files d) ⊎ owned_fds l.
Proof. reflexivity. Qed.

(** The handles of a list are those of the unlinked device and those of the
    devices that stay. *)
Lemma owned_fds_unlink (name : string) (l : list grub_loopbackx)
    (dev : grub_loopbackx) :
  find_device name l = Some dev ->
  owned_fds l = fds (files dev) ⊎ owned_fds (unlink_device name l).
Proof.
  induction l as [|d l IH]; cbn [find_device unlink_device]; [discriminate|].
  destruct (String.eqb (devname d) name).
  - intros [= <-]. apply owned_fds_cons.
  - intros H. rewrite !owned_fds_cons, (IH H). clear. multiset_solver.
Qed.

Lemma unlink_device_Forall (P : grub_loopbackx -> Prop) (name : string)
    (l : list grub_loopbackx) :
  Forall P l -> Forall P (unlink_device name l).
Proof.
  induction 1 as [|d l Hd Hl IH]; cbn; [constructor|].
  destruct (String.eqb (devname d) name); [assumption|now constructor].
Qed.

(** ** Invariants of the device list *)

Lemma run_cons (long_bits : Z) (c : call) (calls : list call) (st : grub_state) :
  run long_bits (c :: calls) st =
  run long_bits calls
    (snd (grub_cmd_loopbackx long_bits (call_env c) (call_delete c)
            (call_args c) st)).
Proof. reflexivity. Qed.

(** X1: no sequence of invocations makes two devices of one name: if the
    names of the device list are pairwise different before, they are so
    after. *)
Theorem names_stay_unique (long_bits : Z) (calls : list call) (st : grub_state) :
  NoDup (device_names (loopback_list st)) ->
  NoDup (device_names (loopback_list (run long_bits calls st))).
Proof.
  revert st. induction calls as [|c calls IH]; intros st H; [exact H|].
  rewrite run_cons. apply IH.
  destruct (cmd_cases long_bits (call_env c) (call_delete c) (call_args c) st)
    as [(L & _)|[(_ & dev & _ & _ & L & _)|(_ & newdev & Hf & _ & L & Hn & _)]];
    cbv zeta in *; rewrite L.
  - exact H.
  - now apply unlink_device_NoDup.
  - cbn. apply list.NoDup_cons. split; [|exact H].
    rewrite Hn. intros Hin. apply find_device_None in Hf. apply Hf.
    now apply list_elem_of_In.
Qed.

Lemma names_stay_unique_witness :
  NoDup (device_names (loopback_list initial_state)) /\
  NoDup (device_names (loopback_list (run 64 sample_calls initial_state))).
Proof.
  assert (NoDup (device_names (loopback_list initial_state))) as H
    by (cbn; constructor).
  split; [exact H|]. apply (names_stay_unique 64 sample_calls initial_state H).
Defined.

(** X2: no sequence of invocations leaks a file handle or closes one that a
    device still holds: if the open handles are exactly the handles of the
    devices of the list before, they are so after. *)
Theorem handles_stay_owned (long_bits : Z) (calls : list call) (st : grub_state) :
  open_fds st = owned_fds (loopback_list st) ->
  open_fds (run long_bits calls st) =
    owned_fds (loopback_list (run long_bits calls st)).
Proof.
  revert st. induction calls as [|c calls IH]; intros st H; [exact H|].
  rewrite run_cons. apply IH.
  destruct (cmd_cases long_bits (call_env c) (call_delete c) (call_args c) st)
    as [(L & F & _)|[(_ & dev & Hf & _ & L & F & _)
                    |(_ & newdev & _ & _ & L & _ & _ & _ & _ & F & _)]];
    cbv zeta in *; rewrite L, F.
  - exact H.
  - rewrite H, (owned_fds_unlink _ _ _ Hf). clear. multiset_solver.
  - rewrite owned_fds_cons, H. clear. multiset_solver.
Qed.

Lemma handles_stay_owned_witness :
  open_fds initial_state = owned_fds (loopback_list initial_state) /\
  open_fds (run 64 sample_calls initial_state) =
    owned_fds (loopback_list (run 64 sample_calls initial_state)).
Proof.
  assert (open_fds initial_state = owned_fds (loopback_list initial_state)) as H
    by reflexivity.
  split; [exact H|]. apply (handles_stay_owned 64 sample_calls initial_state H).
Defined.

(** X3: every device that a sequence of invocations leaves in the list has
    at least one file and at most [MAXCHAINFILES], the size of its [files]
    array, if the devices of the list had before. *)
Theorem chains_stay_bounded (long_bits : Z) (calls : list call) (st : grub_state) :
  Forall (fun dev => 1 <= nfiles dev <= MAXCHAINFILES) (loopback_list st) ->
  Forall (fun dev => 1 <= nfiles dev <= MAXCHAINFILES)
         (loopback_list (run long_bits calls st)).
Proof.
  revert st. induction calls as [|c calls IH]; intros st H; [exact H|].
  rewrite run_cons. apply IH.
  destruct (cmd_cases long_bits (call_env c) (call_delete c) (call_args c) st)
    as [(L & _)|[(_ & dev & _ & _ & L & _)
                |(_ & newdev & _ & _ & L & _ & _ & _ & B & _)]];
    cbv zeta in *; rewrite L.
  - exact H.
  - now apply unlink_device_Forall.
  - constructor; [exact B|exact H].
Qed.

Lemma chains_stay_bounded_witness :
  Forall (fun dev => 1 <= nfiles dev <= MAXCHAINFILES)
         (loopback_list initial_state) /\
  Forall (fun dev => 1 <= nfiles dev <= MAXCHAINFILES)
         (loopback_list (run 64 sample_calls initial_state)).
Proof.
  assert (Forall (fun dev => 1 <= nfiles dev <= MAXCHAINFILES)
            (loopback_list initial_state)) as H by (cbn; constructor).
  split; [exact H|]. apply (chains_stay_bounded 64 sample_calls initial_state H).
Defined.

Lemma unlink_device_In (name : string) (l : list grub_loopbackx) :
  forall d, In d (unlink_device name l) -> In d l.
Proof.
  induction l as [|d0 l IH]; cbn; [tauto|].
  destruct (String.eqb (devname d0) name); cbn; intros d; [tauto|].
  intros [H|H]; [now left|right; now apply IH].
Qed.

Lemma unlink_device_NoDup_ids (name : string) (l : list grub_loopbackx) :
  NoDup (map id l) -> NoDup (map id (unlink_device name l)).
Proof.
  induction l as [|d l IH]; cbn; [auto|].
  intros H. apply list.NoDup_cons in H. destruct H as [Hd Hl].
  destruct (String.eqb (devname d) name); [exact Hl|].
  cbn. apply list.NoDup_cons. split; [|now apply IH].
  intros Hin. apply Hd. apply list_elem_of_In. apply list_elem_of_In in Hin.
  apply in_map_iff in Hin. destruct Hin as (d' & E & Hd').
  apply in_map_iff. exists d'. split; [exact E|].
  now apply (unlink_device_In name l).
Qed.

(** While the counter has not wrapped, the ids in the list are below the
    counter and pairwise different. *)
Lemma ids_below_counter (long_bits : Z) (calls : list call) :
  forall st,
    0 <= last_id st ->
    last_id st + Z.of_nat (length calls) < 2 ^ long_bits ->
    Forall (fun dev => 0 <= id dev < last_id st) (loopback_list st) ->
    NoDup (map id (loopback_list st)) ->
    let st' := run long_bits calls st in
    Forall (fun dev => 0 <= id dev < last_id st') (loopback_list st') /\
    NoDup (map id (loopback_list st')).
Proof.
  induction calls as [|c calls IH]; intros st H0 Hfit Hb Hn; [split; assumption|].
  cbn [length] in Hfit. cbv zeta. rewrite run_cons.
  destruct (cmd_cases long_bits (call_env c) (call_delete c) (call_args c) st)
    as [(L & _ & I & _)|[(_ & dev & _ & _ & L & _ & I & _)
                        |(_ & newdev & _ & _ & L & _ & Hi & _ & _ & _ & I & _)]];
    cbv zeta in *.
  - apply IH; rewrite ?L, ?I; try assumption; lia.
  - apply IH; rewrite ?L, ?I; try assumption; try lia.
    + now apply unlink_device_Forall.
    + now apply unlink_device_NoDup_ids.
  - rewrite wrap_small in I by lia.
    apply IH; rewrite ?L, ?I; try lia.
    + constructor; [lia|]. eapply List.Forall_impl; [|exact Hb].
      cbn. intros d Hd. lia.
    + cbn. apply list.NoDup_cons. split; [|exact Hn].
      intros Hin. apply list_elem_of_In in Hin. apply in_map_iff in Hin.
      destruct Hin as (d' & E & Hd'). rewrite Forall_forall in Hb.
      apply Hb in Hd'. lia.
Qed.

(** X4: two devices that are in the list at the same time never have the
    same id, and the id of every device in the list is below the counter
    [last_id]; this over fewer than [2 ^ long_bits] invocations from the
    initial state, while the counter cannot have wrapped. *)
Theorem live_ids_distinct (long_bits : Z) (calls : list call) :
  Z.of_nat (length calls) < 2 ^ long_bits ->
  let st' := run long_bits calls initial_state in
  NoDup (map id (loopback_list st')) /\
  Forall (fun dev => 0 <= id dev < last_id st') (loopback_list st').
Proof.
  intros Hfit.
  destruct (ids_below_counter long_bits calls initial_state) as [Hb Hn];
    [cbn; lia | cbn; lia | constructor | constructor |].
  split; assumption.
Qed.

Lemma live_ids_distinct_witness :
  Z.of_nat (length sample_calls) < 2 ^ 64 /\
  let st' := run 64 sample_calls initial_state in
  NoDup (map id (loopback_list st')) /\
  Forall (fun dev => 0 <= id dev < last_id st') (loopback_list st').
Proof.
  assert (Z.of_nat (length sample_calls) < 2 ^ 64) as H by (cbn; lia).
  split; [exact H|]. apply (live_ids_distinct 64 sample_calls H).
Defined.

(** ** Create and delete *)

(** When every path opens, the open loop ends with one handle per path, in
    the order of the paths, numbered from [next_fd] on, each at offset 0 and
    with what the file system holds under its path. *)
Lemma open_chain_succeeds (fs : file_system) (paths : list string) :
  (forall p, In p paths -> exists img, fs p = inr img) ->
  forall opened st,
  exists new st1,
    open_chain fs paths opened st = (true, opened ++ new, st1) /\
    List.Forall2
      (fun p f => fs p = inr (mk_image (file_size f) (file_data f) (file_fault f))
                  /\ file_offset f = 0)
      paths new /\
    map file_fd new = seq (next_fd st) (length paths).
Proof.
  induction paths as [|p paths IH]; intros Hall opened st.
  - exists [], st. rewrite app_nil_r. repeat split. constructor.
  - destruct (Hall p (or_introl eq_refl)) as [img Himg].
    cbn [open_chain]. unfold grub_file_open. rewrite Himg.
    match goal with |- context [open_chain _ _ (opened ++ [?f]) ?s] =>
      destruct (IH (fun q Hq => Hall q (or_intror Hq)) (opened ++ [f]) s)
        as (new & st1 & H1 & H2 & H3); exists (f :: new), st1 end.
    rewrite H1, <- app_assoc. cbn [app]. split; [reflexivity|]. split.
    + constructor; [|exact H2]. cbn. destruct img. auto.
    + cbn [map file_fd length seq]. f_equal. exact H3.
Qed.

(** The state that a create leaves when nothing fails. *)
Lemma create_result (long_bits : Z) (env : cmd_env) (name : string)
    (paths : list string) (st : grub_state) :
  1 <= Z.of_nat (length paths) <= MAXCHAINFILES ->
  find_device name (loopback_list st) = None ->
  (forall p, In p paths -> exists img, env_fs env p = inr img) ->
  env_malloc_ok env = true ->
  env_strdup_ok env = true ->
  exists new st1,
    grub_cmd_loopbackx long_bits env false (name :: paths) st =
      (GRUB_ERR_NONE,
       mk_state (mk_loopbackx name new (last_id st) :: loopback_list st)
                (wrap long_bits (last_id st + 1))
                (grub_err st1) (next_fd st1) (open_fds st1)) /\
    List.Forall2
      (fun p f =>
         env_fs env p = inr (mk_image (file_size f) (file_data f) (file_fault f))
         /\ file_offset f = 0)
      paths new /\
    map file_fd new = seq (next_fd st) (length paths) /\
    open_fds st1 = open_fds st ⊎ fds new.
Proof.
  intros Hn Hf Hall Hm Hs.
  rewrite create_reaches_open by assumption.
  destruct (open_chain_succeeds (env_fs env) paths Hall [] st)
    as (new & st1 & Hrun & H2 & H3).
  rewrite Hrun, Hm, Hs. cbn [negb app].
  destruct (open_chain_frame _ _ _ _ _ _ _ Hrun)
    as (new' & E & L1 & L2 & L3 & _).
  cbn [app] in E. subst new'. exists new, st1. rewrite L1, L2. auto.
Qed.

(** With [-d] and a name the command is [delete_loopbackx] of the name. *)
Lemma delete_flag_deletes (long_bits : Z) (env : cmd_env) (name : string)
    (rest : list string) (st : grub_state) :
  grub_cmd_loopbackx long_bits env true (name :: rest) st =
  delete_loopbackx name st.
Proof.
  unfold grub_cmd_loopbackx. rewrite argc_cons.
  destruct (Z.ltb_spec (1 + Z.of_nat (length rest)) 1); [lia|reflexivity].
Qed.

(** X5: a create with a new name, one to [MAXCHAINFILES] paths that all
    open, and allocations that succeed returns success and puts a new device
    at the head of the list: it has the name, the value of [last_id] as id,
    and one file per path in the order of the paths.  The handles of these
    files, fresh ones, are open after the call, together with the handles
    that were open before, and the id counter has moved on by one.  A
    lookup of the name finds the device, and the lookup of every other name
    is as before. *)
Theorem create_succeeds (long_bits : Z) (env : cmd_env) (name : string)
    (paths : list string) (st : grub_state) :
  1 <= Z.of_nat (length paths) <= MAXCHAINFILES ->
  find_device name (loopback_list st) = None ->
  (forall p, In p paths -> exists img, env_fs env p = inr img) ->
  env_malloc_ok env = true ->
  env_strdup_ok env = true ->
  let '(ret, st') :=
    grub_cmd_loopbackx long_bits env false (name :: paths) st in
  ret = GRUB_ERR_NONE /\
  exists newdev,
    loopback_list st' = newdev :: loopback_list st /\
    devname newdev = name /\
    id newdev = last_id st /\
    List.Forall2
      (fun p f =>
         env_fs env p = inr (mk_image (file_size f) (file_data f) (file_fault f))
         /\ file_offset f = 0)
      paths (files newdev) /\
    map file_fd (files newdev) = seq (next_fd st) (length paths) /\
    open_fds st' = open_fds st ⊎ fds (files newdev) /\
    last_id st' = wrap long_bits (last_id st + 1) /\
    find_device name (loopback_list st') = Some newdev /\
    (forall other, other <> name ->
       find_device other (loopback_list st') =
       find_device other (loopback_list st)).
Proof.
  intros Hn Hf Hall Hm Hs.
  destruct (create_result long_bits env name paths st Hn Hf Hall Hm Hs)
    as (new & st1 & -> & H2 & H3 & H4).
  split; [reflexivity|]. eexists. cbn [loopback_list open_fds last_id].
  split; [reflexivity|]. cbn [devname id files find_device].
  rewrite String.eqb_refl. repeat split; try assumption.
  intros other Hne. destruct (String.eqb_spec name other); [congruence|reflexivity].
Qed.

Lemma create_succeeds_witness :
  find_device "loop9" (loopback_list sample_state) = None /\
  let '(ret, st') :=
    grub_cmd_loopbackx 64 sample_env false ["loop9"; "b.img"; "a.img"]%string
      sample_state in
  ret = GRUB_ERR_NONE /\
  exists newdev,
    loopback_list st' = newdev :: loopback_list sample_state /\
    devname newdev = "loop9"%string /\
    id newdev = last_id sample_state /\
    List.Forall2
      (fun p f =>
         env_fs sample_env p =
           inr (mk_image (file_size f) (file_data f) (file_fault f))
         /\ file_offset f = 0)
      ["b.img"; "a.img"]%string (files newdev) /\
    map file_fd (files newdev) = seq (next_fd sample_state) 2 /\
    open_fds st' = open_fds sample_state ⊎ fds (files newdev) /\
    last_id st' = wrap 64 (last_id sample_state + 1) /\
    find_device "loop9" (loopback_list st') = Some newdev /\
    (forall other, other <> "loop9"%string ->
       find_device other (loopback_list st') =
       find_device other (loopback_list sample_state)).
Proof.
  split; [reflexivity|].
  apply (create_succeeds 64 sample_env "loop9" ["b.img"; "a.img"]%string
           sample_state);
    [cbn; unfold MAXCHAINFILES; lia | reflexivity | | reflexivity | reflexivity].
  intros p [<-|[<-|[]]]; eexists; reflexivity.
Defined.

(** X6: when an allocation of a create fails after all files are open, the
    command returns [GRUB_ERR_OUT_OF_MEMORY], every file it opened is closed
    again, and the device list and the id counter are as before. *)
Theorem create_allocation_failure_is_atomic (long_bits : Z) (env : cmd_env)
    (name : string) (paths : list string) (st : grub_state) :
  1 <= Z.of_nat (length paths) <= MAXCHAINFILES ->
  find_device name (loopback_list st) = None ->
  (forall p, In p paths -> exists img, env_fs env p = inr img) ->
  env_malloc_ok env = false \/ env_strdup_ok env = false ->
  let '(ret, st') :=
    grub_cmd_loopbackx long_bits env false (name :: paths) st in
  ret = GRUB_ERR_OUT_OF_MEMORY /\
  loopback_list st' = loopback_list st /\
  last_id st' = last_id st /\
  open_fds st' = open_fds st /\
  next_fd st' = (next_fd st + length paths)%nat.
Proof.
  intros Hn Hf Hall Halloc.
  rewrite create_reaches_open by assumption.
  destruct (open_chain_succeeds (env_fs env) paths Hall [] st)
    as (new & st1 & Hrun & H2 & H3).
  rewrite Hrun. cbn [app].
  destruct (open_chain_frame _ _ _ _ _ _ _ Hrun)
    as (new' & E & L1 & L2 & L3 & L4 & L5).
  cbn [app] in E. subst new'. destruct (L5 eq_refl) as [L6 _].
  assert (let '(ret, st') := create_fail new (out_of_memory st1) in
          ret = GRUB_ERR_OUT_OF_MEMORY /\
          loopback_list st' = loopback_list st /\
          last_id st' = last_id st /\
          open_fds st' = open_fds st /\
          next_fd st' = (next_fd st + length paths)%nat) as Hfail.
  { pose proof (create_fail_frame new (out_of_memory st1)) as F.
    destruct (create_fail new (out_of_memory st1)) as [ret st'].
    destruct F as (F0 & _ & F1 & F2 & F3 & F4). cbn in F0, F1, F2, F3, F4.
    repeat split; try congruence.
    rewrite F4, L3. clear. multiset_solver. }
  destruct (env_malloc_ok env); cbn [negb]; [|exact Hfail].
  destruct (env_strdup_ok env); cbn [negb]; [|exact Hfail].
  destruct Halloc; discriminate.
Qed.

Lemma create_allocation_failure_is_atomic_witness :
  (find_device "loop9" (loopback_list sample_state) = None /\
   (env_malloc_ok no_strdup_env = false \/ env_strdup_ok no_strdup_env = false)) /\
  let '(ret, st') :=
    grub_cmd_loopbackx 64 no_strdup_env false ["loop9"; "b.img"; "a.img"]%string
      sample_state in
  ret = GRUB_ERR_OUT_OF_MEMORY /\
  loopback_list st' = loopback_list sample_state /\
  last_id st' = last_id sample_state /\
  open_fds st' = open_fds sample_state /\
  next_fd st' = (next_fd sample_state + 2)%nat.
Proof.
  split; [split; [reflexivity|right; reflexivity]|].
  apply (create_allocation_failure_is_atomic 64 no_strdup_env "loop9"
           ["b.img"; "a.img"]%string sample_state);
    [cbn; unfold MAXCHAINFILES; lia | reflexivity | | right; reflexivity].
  intros p [<-|[<-|[]]]; eexists; reflexivity.
Defined.

(** X7: the delete of a name that is in a list of pairwise different names
    succeeds; afterwards a lookup of the name finds nothing, the lookup of
    every other name is as before, the list is one device shorter, and of
    the open handles exactly those of the deleted device are closed. *)
Theorem delete_removes_device (name : string) (st : grub_state)
    (dev : grub_loopbackx) :
  find_device name (loopback_list st) = Some dev ->
  NoDup (device_names (loopback_list st)) ->
  let '(ret, st') := delete_loopbackx name st in
  ret = GRUB_ERR_NONE /\
  find_device name (loopback_list st') = None /\
  (forall other, other <> name ->
     find_device other (loopback_list st') =
     find_device other (loopback_list st)) /\
  S (length (loopback_list st')) = length (loopback_list st) /\
  open_fds st' = open_fds st ∖ fds (files dev) /\
  last_id st' = last_id st.
Proof.
  intros Hf Hn. unfold delete_loopbackx. rewrite Hf.
  destruct (close_descending_frame (files dev)
              (mk_state (unlink_device name (loopback_list st))
                 (last_id st) (grub_err st) (next_fd st) (open_fds st)))
    as (H1 & H2 & H3 & H4 & H5).
  cbn in H1, H2, H5. rewrite H1, H2, H5.
  split; [reflexivity|]. split; [now apply find_device_unlinked|].
  split; [intros other Hne; now apply find_device_unlink_other|].
  split; [now apply (unlink_device_length name _ dev)|]. split; reflexivity.
Qed.

Lemma delete_removes_device_witness :
  (find_device "loop0" (loopback_list sample_state) = Some sample_dev /\
   NoDup (device_names (loopback_list sample_state))) /\
  let '(ret, st') := delete_loopbackx "loop0" sample_state in
  ret = GRUB_ERR_NONE /\
  find_device "loop0" (loopback_list st') = None /\
  (forall other, other <> "loop0"%string ->
     find_device other (loopback_list st') =
     find_device other (loopback_list sample_state)) /\
  S (length (loopback_list st')) = length (loopback_list sample_state) /\
  open_fds st' = open_fds sample_state ∖ fds (files sample_dev) /\
  last_id st' = last_id sample_state.
Proof.
  assert (NoDup (device_names (loopback_list sample_state))) as Hn.
  { cbn. repeat constructor. intros H. inversion H. }
  split; [split; [reflexivity|exact Hn]|].
  apply (delete_removes_device "loop0" sample_state sample_dev);
    [reflexivity|exact Hn].
Defined.

(** X8: a create that succeeds, followed by the delete of the same name,
    gives back the device list and the open handles of before the create;
    the id counter has moved on by one all the same, so the id is not given
    again. *)
Theorem create_then_delete (long_bits : Z) (env env' : cmd_env)
    (name : string) (paths rest : list string) (st : grub_state) :
  1 <= Z.of_nat (length paths) <= MAXCHAINFILES ->
  find_device name (loopback_list st) = None ->
  (forall p, In p paths -> exists img, env_fs env p = inr img) ->
  env_malloc_ok env = true ->
  env_strdup_ok env = true ->
  let st1 := snd (grub_cmd_loopbackx long_bits env false (name :: paths) st) in
  let '(ret, st2) := grub_cmd_loopbackx long_bits env' true (name :: rest) st1 in
  ret = GRUB_ERR_NONE /\
  loopback_list st2 = loopback_list st /\
  open_fds st2 = open_fds st /\
  last_id st2 = wrap long_bits (last_id st + 1).
Proof.
  intros Hn Hf Hall Hm Hs.
  destruct (create_result long_bits env name paths st Hn Hf Hall Hm Hs)
    as (new & st1 & -> & _ & _ & F).
  cbn [snd]. rewrite delete_flag_deletes. unfold delete_loopbackx.
  cbn [loopback_list find_device unlink_device devname files last_id
       grub_err next_fd open_fds].
  rewrite String.eqb_refl.
  match goal with |- context [close_descending ?fl ?s] =>
    destruct (close_descending_frame fl s) as (H1 & H2 & H3 & H4 & H5) end.
  cbn [loopback_list last_id open_fds] in H1, H2, H5.
  rewrite H1, H2, H5, F. repeat split. clear. multiset_solver.
Qed.

Lemma create_then_delete_witness :
  find_device "loop9" (loopback_list sample_state) = None /\
  let st1 := snd (grub_cmd_loopbackx 64 sample_env false
                    ["loop9"; "b.img"; "a.img"]%string sample_state) in
  let '(ret, st2) :=
    grub_cmd_loopbackx 64 sample_env true ["loop9"; "more"]%string st1 in
  ret = GRUB_ERR_NONE /\
  loopback_list st2 = loopback_list sample_state /\
  open_fds st2 = open_fds sample_state /\
  last_id st2 = wrap 64 (last_id sample_state + 1).
Proof.
  split; [reflexivity|].
  apply (create_then_delete 64 sample_env sample_env "loop9"
           ["b.img"; "a.img"]%string ["more"%string] sample_state);
    [cbn; unfold MAXCHAINFILES; lia | reflexivity | | reflexivity | reflexivity].
  intros p [<-|[<-|[]]]; eexists; reflexivity.
Defined.

(** ** Enumeration and open *)

Lemma iterate_from_spec (hook_data : Type)
    (hook : grub_disk_dev_iterate_hook_t hook_data) (accept : string -> bool) :
  (forall n d, (fst (hook n d) =? 0) = negb (accept n)) ->
  forall (l : list grub_loopbackx) (data : hook_data),
    iterate_from hook_data hook l data =
    (if existsb accept (device_names l) then 1 else 0,
     fold_left (fun d n => snd (hook n d))
               (visited_names accept (device_names l)) data).
Proof.
  intros Hhook. induction l as [|dev l IH]; intros data; [reflexivity|].
  cbn [iterate_from device_names map existsb visited_names].
  specialize (Hhook (devname dev) data).
  destruct (hook (devname dev) data) as [r data'] eqn:E. cbn [fst] in Hhook.
  rewrite Hhook. destruct (accept (devname dev)); cbn [negb orb fold_left];
    rewrite ?E; cbn [snd]; [reflexivity|].
  rewrite IH. reflexivity.
Qed.

(** X9: for a hook that decides by the name, the enumeration with pull
    class [GRUB_DISK_PULL_NONE] calls the hook on the names of the list from
    the head on (the device created last comes first), stops after the first
    name the hook accepts, and returns 1 when a name was accepted and 0
    otherwise; with any other pull class it returns 0 and the hook is not
    called. *)
Theorem iterate_visits_until_accepted (hook_data : Type)
    (hook : grub_disk_dev_iterate_hook_t hook_data) (accept : string -> bool)
    (data : hook_data) (pull : grub_disk_pull_t) (st : grub_state) :
  (forall n d, (fst (hook n d) =? 0) = negb (accept n)) ->
  grub_loopbackx_iterate hook_data hook data pull st =
  match pull with
  | GRUB_DISK_PULL_NONE =>
      (if existsb accept (device_names (loopback_list st)) then 1 else 0,
       fold_left (fun d n => snd (hook n d))
                 (visited_names accept (device_names (loopback_list st))) data)
  | _ => (0, data)
  end.
Proof.
  intros Hhook. destruct pull; cbn [grub_loopbackx_iterate]; try reflexivity.
  now apply iterate_from_spec.
Qed.

Lemma iterate_visits_until_accepted_witness :
  (forall n d, (fst (recording_hook (String.eqb "loop1") n d) =? 0) =
               negb (String.eqb "loop1" n)) /\
  grub_loopbackx_iterate (list string) (recording_hook (String.eqb "loop1")) []
    GRUB_DISK_PULL_NONE (run 64 sample_calls initial_state) =
  (1, ["loop1"%string]) /\
  grub_loopbackx_iterate (list string) (recording_hook (String.eqb "loop0")) []
    GRUB_DISK_PULL_NONE (run 64 sample_calls initial_state) =
  (1, ["loop1"; "loop0"]%string).
Proof.
  assert (forall a n d, (fst (recording_hook a n d) =? 0) = negb (a n)) as H.
  { intros a n d. cbn. now destruct (a n). }
  split; [apply H|]. split.
  - rewrite (iterate_visits_until_accepted (list string)
               (recording_hook (String.eqb "loop1")) (String.eqb "loop1") []
               GRUB_DISK_PULL_NONE (run 64 sample_calls initial_state) (H _)).
    reflexivity.
  - rewrite (iterate_visits_until_accepted (list string)
               (recording_hook (String.eqb "loop0")) (String.eqb "loop0") []
               GRUB_DISK_PULL_NONE (run 64 sample_calls initial_state) (H _)).
    reflexivity.
Defined.

Lemma existsb_name (name : string) (l : list grub_loopbackx) :
  existsb (fun n => String.eqb n name) (device_names l) = true <->
  find_device name l <> None.
Proof.
  induction l as [|d l IH]; cbn; [split; [discriminate|congruence]|].
  destruct (String.eqb (devname d) name); cbn; [split; [discriminate|reflexivity]|].
  exact IH.
Qed.

(** X10: the enumeration and [open] agree on which devices there are: the
    enumeration with a hook that stops at a name returns 1 exactly when
    [open] of that name succeeds; when [open] does not succeed it returns
    [GRUB_ERR_UNKNOWN_DEVICE] and leaves the disk as it was. *)
Theorem iterate_agrees_with_open (size_bits sector_bits cache_bits : Z)
    (name : string) (disk : grub_disk) (st : grub_state) :
  (fst (grub_loopbackx_iterate unit (name_hook name) tt GRUB_DISK_PULL_NONE st) = 1
   <->
   fst (fst (grub_loopbackx_open size_bits sector_bits cache_bits name disk st))
     = GRUB_ERR_NONE) /\
  (fst (fst (grub_loopbackx_open size_bits sector_bits cache_bits name disk st))
     = GRUB_ERR_NONE \/
   fst (grub_loopbackx_open size_bits sector_bits cache_bits name disk st)
     = (GRUB_ERR_UNKNOWN_DEVICE, disk)).
Proof.
  cbn [grub_loopbackx_iterate].
  rewrite (iterate_from_spec unit (name_hook name) (fun n => String.eqb n name))
    by (intros n d; cbn; now destruct (String.eqb n name)).
  cbn [fst]. pose proof (existsb_name name (loopback_list st)) as He.
  unfold grub_loopbackx_open.
  destruct (find_device name (loopback_list st)) as [dev|].
  - destruct (size_walk size_bits (files dev) 0 0). cbn [fst].
    split; [|now left]. destruct (existsb _ _).
    + tauto.
    + destruct He as [_ He]. discriminate He. discriminate.
  - cbn [fst]. split; [|now right].
    destruct (existsb _ _); [|split; discriminate].
    destruct He as [He _]. exfalso. now apply He.
Qed.

(** X11: after the delete of a device from a list of pairwise different
    names, [open] of its name fails with [GRUB_ERR_UNKNOWN_DEVICE] and
    leaves the disk as it was, and the enumeration no longer reports the
    name. *)
Theorem open_after_delete (size_bits sector_bits cache_bits : Z)
    (name : string) (disk : grub_disk) (st : grub_state)
    (dev : grub_loopbackx) :
  find_device name (loopback_list st) = Some dev ->
  NoDup (device_names (loopback_list st)) ->
  let st' := snd (delete_loopbackx name st) in
  fst (grub_loopbackx_open size_bits sector_bits cache_bits name disk st') =
    (GRUB_ERR_UNKNOWN_DEVICE, disk) /\
  fst (grub_loopbackx_iterate unit (name_hook name) tt GRUB_DISK_PULL_NONE st')
    = 0.
Proof.
  intros Hf Hn. cbv zeta.
  assert (find_device name (loopback_list (snd (delete_loopbackx name st))) = None)
    as Hgone.
  { unfold delete_loopbackx. rewrite Hf. cbn [snd].
    match goal with |- context [close_descending ?fl ?s] =>
      destruct (close_descending_frame fl s) as (H1 & _) end.
    rewrite H1. cbn [loopback_list]. now apply find_device_unlinked. }
  split.
  - unfold grub_loopbackx_open. now rewrite Hgone.
  - cbn [grub_loopbackx_iterate].
    rewrite (iterate_from_spec unit (name_hook name) (fun n => String.eqb n name))
      by (intros n d; cbn; now destruct (String.eqb n name)).
    cbn [fst].
    destruct (existsb _ _) eqn:He; [|reflexivity].
    apply existsb_name in He. contradiction.
Qed.

Lemma open_after_delete_witness :
  (find_device "loop0" (loopback_list sample_state) = Some sample_dev /\
   NoDup (device_names (loopback_list sample_state))) /\
  let st' := snd (delete_loopbackx "loop0" sample_state) in
  fst (grub_loopbackx_open 64 9 6 "loop0" blank_disk st') =
    (GRUB_ERR_UNKNOWN_DEVICE, blank_disk) /\
  fst (grub_loopbackx_iterate unit (name_hook "loop0") tt GRUB_DISK_PULL_NONE st')
    = 0.
Proof.
  assert (NoDup (device_names (loopback_list sample_state))) as Hn.
  { cbn. repeat constructor. intros H. inversion H. }
  split; [split; [reflexivity|exact Hn]|].
  apply (open_after_delete 64 9 6 "loop0" blank_disk sample_state sample_dev);
    [reflexivity|exact Hn].
Defined.

(** X12: [open] of a device of the list ties the disk to it: the disk gets
    the id of the device and the device as its data, and the state is left
    as it is.  The batch limit [max_agglomerate], counted in cache blocks of
    [2 ^ cache_bits] sectors, comes to 512 MiB whatever the chain is. *)
Theorem open_binds_device (size_bits sector_bits cache_bits : Z)
    (name : string) (disk : grub_disk) (st : grub_state)
    (dev : grub_loopbackx) :
  find_device name (loopback_list st) = Some dev ->
  0 <= sector_bits -> 0 <= cache_bits -> sector_bits + cache_bits <= 29 ->
  let '(ret, disk', st') :=
    grub_loopbackx_open size_bits sector_bits cache_bits name disk st in
  ret = GRUB_ERR_NONE /\ st' = st /\
  disk_id disk' = id dev /\
  disk_data disk' = Some dev /\
  max_agglomerate disk' * 2 ^ cache_bits * 2 ^ sector_bits = 2 ^ 29.
Proof.
  intros Hf Hs Hc Hsum. unfold grub_loopbackx_open. rewrite Hf.
  destruct (size_walk size_bits (files dev) 0 0) as [sectors alldata].
  cbn [disk_id disk_data max_agglomerate]. repeat split.
  rewrite Z.shiftl_1_l, <- !Z.pow_add_r by lia. f_equal. lia.
Qed.

Lemma open_binds_device_witness :
  find_device "loop0" (loopback_list sample_state) = Some sample_dev /\
  let '(ret, disk', st') :=
    grub_loopbackx_open 64 9 6 "loop0" blank_disk sample_state in
  ret = GRUB_ERR_NONE /\ st' = sample_state /\
  disk_id disk' = id sample_dev /\
  disk_data disk' = Some sample_dev /\
  max_agglomerate disk' * 2 ^ 6 * 2 ^ 9 = 2 ^ 29.
Proof.
  split; [reflexivity|].
  apply (open_binds_device 64 9 6 "loop0" blank_disk sample_state sample_dev);
    [reflexivity | lia | lia | lia].
Defined.

(** ** More on the chain walk *)





(** X14: a read of no sector reads no file and stores nothing; it returns
    whatever error is pending at the call. *)
Theorem read_of_nothing (size_bits sector_bits : Z) (dev : grub_loopbackx)
    (sector buf : Z) (m : memory) (err : grub_error_state) :
  grub_loopbackx_read size_bits sector_bits dev sector 0 buf m err =
  mk_result (grub_errno err) (files dev) m err.
Proof.
  unfold grub_loopbackx_read. rewrite Z.shiftl_0_l.
  unfold to_size at 1. unfold wrap at 1. rewrite Zmod_0_l.
  rewrite chain_walk_done by reflexivity. cbn [rd_err rd_total rd_mem].
  destruct (decide (grub_errno err = GRUB_ERR_NONE)) as [E|E]; [|reflexivity].
  rewrite E. reflexivity.
Qed.

(** ** Reads that the walk gets right, and what it stores otherwise *)

(** X15: a read that starts at the first byte of a file of the chain takes
    bytes from that file only: it succeeds, stores the first bytes of the
    file, as many as were asked for or as the file has, at the buffer, and
    stores nothing else; the files after it are not read, also when fewer
    bytes were stored than were asked for. *)
Theorem read_from_file_start (size_bits sector_bits : Z)
    (dev : grub_loopbackx) (pre : list grub_file) (f : grub_file)
    (post : list grub_file) (sector size buf : Z) (m : memory)
    (err : grub_error_state) :
  0 <= sector_bits -> size_bits <= 64 ->
  files dev = pre ++ f :: post ->
  Forall size_known pre ->
  sound_file f -> 0 < file_size f < 2 ^ 64 ->
  grub_errno err = GRUB_ERR_NONE ->
  0 <= sector -> 0 < size ->
  sector * 2 ^ sector_bits < 2 ^ size_bits ->
  size * 2 ^ sector_bits < 2 ^ size_bits ->
  sector * 2 ^ sector_bits = chain_length pre ->
  let r := grub_loopbackx_read size_bits sector_bits dev sector size buf m err in
  let bytes := firstn (Z.to_nat (size * 2 ^ sector_bits)) (file_data f) in
  rr_ret r = GRUB_ERR_NONE /\
  rr_mem r = mem_write m buf bytes /\
  delivered (rr_mem r) buf (length bytes) = bytes /\
  exists f', same_backing f f' /\ rr_files r = pre ++ f' :: post.
Proof.
  intros Hsb Hb Hfiles Hpre Hsf Hf Herr Hsec Hsize Hf1 Hf2 Hstart.
  destruct (request_bytes size_bits sector_bits sector size) as [Es Et];
    try assumption; try lia.
  assert (0 < 2 ^ sector_bits) as Hp by (apply Z.pow_pos_nonneg; lia).
  set (spos := sector * 2 ^ sector_bits) in *.
  set (total := size * 2 ^ sector_bits) in *.
  assert (0 < total) as Htp by (subst total; nia).
  intros r bytes. subst r. unfold grub_loopbackx_read.
  rewrite Es, Et, Hfiles, chain_walk_app.
  rewrite chain_walk_skip_prefix by (try assumption; cbn; lia).
  cbn [rd_buf rd_total rd_spos rd_mem rd_err].
  rewrite Hstart, Z.sub_diag.
  rewrite chain_walk_start by (try assumption; lia).
  cbn [rd_err rd_total rd_mem rd_buf].
  destruct (decide (grub_errno err = GRUB_ERR_NONE)); [|contradiction].
  cbn [rr_ret rr_mem rr_files]. change (0 >? 0) with false. cbv iota.
  fold bytes. split; [reflexivity|]. split; [reflexivity|].
  split; [apply delivered_write_same|].
  eexists. split; [|reflexivity]. repeat split.
Qed.

Lemma read_from_file_start_witness :
  (files sample_dev = [sample_file_a] ++ sample_file_b :: [] /\
   10 * 2 ^ 0 = chain_length [sample_file_a]) /\
  let r := grub_loopbackx_read 64 0 sample_dev 10 8 0 blank_memory no_error in
  let bytes := firstn (Z.to_nat (8 * 2 ^ 0)) (file_data sample_file_b) in
  rr_ret r = GRUB_ERR_NONE /\
  rr_mem r = mem_write blank_memory 0 bytes /\
  delivered (rr_mem r) 0 (length bytes) = bytes /\
  exists f', same_backing sample_file_b f' /\
             rr_files r = [sample_file_a] ++ f' :: [].
Proof.
  split; [split; reflexivity|].
  apply (read_from_file_start 64 0 sample_dev [sample_file_a] sample_file_b []
           10 8 0 blank_memory no_error);
    [lia | lia | reflexivity
    | repeat constructor; unfold GRUB_FILE_SIZE_UNKNOWN; cbn; lia
    | split; reflexivity | cbn; lia | reflexivity | lia | lia
    | reflexivity | reflexivity | reflexivity].
Defined.

Lemma logical_disk_app (l1 l2 : list grub_file) :
  logical_disk (l1 ++ l2) = logical_disk l1 ++ logical_disk l2.
Proof. unfold logical_disk. now rewrite map_app, concat_app. Qed.

Lemma logical_disk_cons (f : grub_file) (l : list grub_file) :
  logical_disk (f :: l) = file_data f ++ logical_disk l.
Proof. reflexivity. Qed.

Lemma logical_disk_length (l : list grub_file) :
  Forall sound_file l -> Z.of_nat (length (logical_disk l)) = chain_length l.
Proof.
  induction 1 as [|f l [Hd _] _ IH]; [reflexivity|].
  rewrite logical_disk_cons, length_app, chain_length_cons, Hd. lia.
Qed.

(** The bytes of a range that starts inside one file and ends inside the
    next. *)
Lemma byte_range_two_files (pre : list grub_file) (f g : grub_file)
    (post : list grub_file) (c k : nat) :
  (c <= length (file_data f))%nat ->
  (k <= length (file_data g))%nat ->
  byte_range (logical_disk (pre ++ f :: g :: post))
             (length (logical_disk pre) + c)
             (length (file_data f) - c + k) =
  skipn c (file_data f) ++ firstn k (file_data g).
Proof.
  intros Hc Hk. unfold byte_range.
  rewrite logical_disk_app, !logical_disk_cons.
  rewrite List.skipn_app, List.skipn_all2 by lia. cbn [app].
  replace (length (logical_disk pre) + c - length (logical_disk pre))%nat
    with c by lia.
  rewrite List.skipn_app. replace (c - length (file_data f))%nat with 0%nat by lia.
  rewrite drop_0. rewrite List.firstn_app, length_drop.
  rewrite List.firstn_all2 by (rewrite length_drop; lia). f_equal.
  replace (length (file_data f) - c + k - (length (file_data f) - c))%nat
    with k by lia.
  rewrite List.firstn_app. replace (k - length (file_data g))%nat with 0%nat by lia.
  cbn [firstn]. now rewrite app_nil_r.
Qed.

(** X16: a read that starts inside a file, past its first byte, runs to the
    end of that file and ends inside the next file delivers exactly the
    requested byte range of the concatenation of the files. *)
Theorem read_over_one_boundary (size_bits sector_bits : Z)
    (dev : grub_loopbackx) (pre : list grub_file) (f g : grub_file)
    (post : list grub_file) (sector size buf : Z) (m : memory)
    (err : grub_error_state) :
  0 <= sector_bits -> size_bits <= 64 ->
  files dev = pre ++ f :: g :: post ->
  Forall size_known pre -> Forall sound_file pre ->
  size_known f -> sound_file f -> size_known g -> sound_file g ->
  grub_errno err = GRUB_ERR_NONE ->
  0 <= sector -> 0 <= size ->
  sector * 2 ^ sector_bits < 2 ^ size_bits ->
  size * 2 ^ sector_bits < 2 ^ size_bits ->
  chain_length pre < sector * 2 ^ sector_bits < chain_length pre + file_size f ->
  chain_length pre + file_size f
    < sector * 2 ^ sector_bits + size * 2 ^ sector_bits
    <= chain_length pre + file_size f + file_size g ->
  sector * 2 ^ sector_bits - chain_length pre + file_size f < 2 ^ 64 ->
  let r := grub_loopbackx_read size_bits sector_bits dev sector size buf m err in
  rr_ret r = GRUB_ERR_NONE /\
  delivered (rr_mem r) buf (Z.to_nat (size * 2 ^ sector_bits)) =
    byte_range (logical_disk (files dev))
               (Z.to_nat (sector * 2 ^ sector_bits))
               (Z.to_nat (size * 2 ^ sector_bits)).
Proof.
  intros Hsb Hb Hfiles Hpre Hpres Hkf Hsf Hkg Hsg Herr Hsec Hsize Hf1 Hf2
         Hin Hend H64.
  destruct (request_bytes size_bits sector_bits sector size) as [Es Et];
    try assumption.
  set (spos := sector * 2 ^ sector_bits) in *.
  set (total := size * 2 ^ sector_bits) in *.
  pose proof (chain_length_nonneg pre Hpre) as Hpn.
  pose proof (logical_disk_length pre Hpres) as Hlen.
  unfold size_known in Hkf, Hkg.
  pose proof Hsf as [Hdf _]. pose proof Hsg as [Hdg _].
  set (c := spos - chain_length pre) in *.
  set (n := file_size f - c).
  set (k := total - n).
  assert (0 < c < file_size f) as Hc by lia.
  assert (0 < k <= file_size g) as Hk by (subst k n c; lia).
  set (b1 := skipn (Z.to_nat c) (file_data f)).
  set (b2 := firstn (Z.to_nat k) (file_data g)).
  assert (length b1 = Z.to_nat n) as L1
    by (subst b1 n; rewrite length_drop; lia).
  assert (length b2 = Z.to_nat k) as L2
    by (subst b2; rewrite length_take; lia).
  assert (exists fl,
            grub_loopbackx_read size_bits sector_bits dev sector size buf m err =
            mk_result GRUB_ERR_NONE fl
              (mem_write (mem_write m buf b1) (buf + n) b2) err) as [fl Hr].
  { unfold grub_loopbackx_read.
    rewrite Es, Et, Hfiles, chain_walk_app.
    rewrite chain_walk_skip_prefix by (try assumption; cbn; lia).
    cbn [rd_buf rd_total rd_spos rd_mem rd_err]. fold c.
    rewrite chain_walk_inside by (try assumption; lia).
    fold n. unfold to_size. rewrite wrap_small by (subst n c; lia). fold k.
    rewrite chain_walk_start
      by (try assumption; unfold GRUB_FILE_SIZE_UNKNOWN in *; lia).
    cbn [rd_err rd_total rd_mem rd_buf].
    destruct (decide (grub_errno err = GRUB_ERR_NONE)); [|contradiction].
    change (0 >? 0) with false. cbv iota. eexists. reflexivity. }
  intros r. subst r. rewrite Hr. cbn [rr_ret rr_mem]. split; [reflexivity|].
  rewrite Hfiles.
  replace (Z.to_nat spos) with (length (logical_disk pre) + Z.to_nat c)%nat
    by (subst c; lia).
  replace (Z.to_nat total)
    with (length (file_data f) - Z.to_nat c + Z.to_nat k)%nat
    by (subst k n; lia).
  rewrite byte_range_two_files by lia. fold b1 b2.
  replace (length (file_data f) - Z.to_nat c)%nat with (length b1) by lia.
  rewrite <- L2 at 1. rewrite delivered_app. f_equal.
  - rewrite delivered_write_apart by lia. apply delivered_write_same.
  - replace (buf + Z.of_nat (length b1)) with (buf + n) by lia.
    apply delivered_write_same.
Qed.

Lemma read_over_one_boundary_witness :
  (chain_length [] < 7 * 2 ^ 0 < chain_length [] + file_size sample_file_a /\
   chain_length [] + file_size sample_file_a < 7 * 2 ^ 0 + 23 * 2 ^ 0
     <= chain_length [] + file_size sample_file_a + file_size sample_file_b) /\
  let r := grub_loopbackx_read 64 0 sample_dev 7 23 0 blank_memory no_error in
  rr_ret r = GRUB_ERR_NONE /\
  delivered (rr_mem r) 0 (Z.to_nat (23 * 2 ^ 0)) =
    byte_range (logical_disk (files sample_dev))
               (Z.to_nat (7 * 2 ^ 0)) (Z.to_nat (23 * 2 ^ 0)).
Proof.
  assert (size_known sample_file_a /\ size_known sample_file_b) as [Ka Kb]
    by (unfold size_known, GRUB_FILE_SIZE_UNKNOWN; cbn; lia).
  split; [split; unfold chain_length; cbn; lia|].
  apply (read_over_one_boundary 64 0 sample_dev [] sample_file_a sample_file_b []
           7 23 0 blank_memory no_error);
    [lia | lia | reflexivity | constructor | constructor | exact Ka
    | split; reflexivity | exact Kb | split; reflexivity | reflexivity
    | lia | lia | reflexivity | reflexivity
    | unfold chain_length; cbn; lia | unfold chain_length; cbn; lia
    | reflexivity].
Defined.

(** A count that went below zero, as [grub_size_t] holds it. *)
Lemma wrap_negative (bits x : Z) :
  - 2 ^ bits <= x < 0 -> wrap bits x = 2 ^ bits + x.
Proof.
  intros H. unfold wrap.
  rewrite <- (Z.mod_add x 1 (2 ^ bits)) by lia.
  rewrite Z.mul_1_l, Z.mod_small; lia.
Qed.

(** X17: a read that starts inside a file, past its first byte, and asks
    for fewer bytes than that file has left stores all the rest of the file
    all the same; the count of bytes still needed wraps around, and when a
    file that is not empty follows, that file is stored after it, from its
    first byte to its last.  The call returns success with the rest of the
    one file and all of the next at the buffer, and nothing else stored. *)
Theorem read_inside_runs_into_next_file (size_bits sector_bits : Z)
    (dev : grub_loopbackx) (pre : list grub_file) (f g : grub_file)
    (post : list grub_file) (sector size buf : Z) (m : memory)
    (err : grub_error_state) :
  0 <= sector_bits -> 0 <= size_bits <= 64 ->
  files dev = pre ++ f :: g :: post ->
  Forall size_known pre -> sound_file f -> sound_file g ->
  0 < file_size g ->
  grub_errno err = GRUB_ERR_NONE ->
  0 <= sector -> 0 < size ->
  sector * 2 ^ sector_bits < 2 ^ size_bits ->
  size * 2 ^ sector_bits < 2 ^ size_bits ->
  chain_length pre < sector * 2 ^ sector_bits < chain_length pre + file_size f ->
  sector * 2 ^ sector_bits - chain_length pre + file_size f < 2 ^ 64 ->
  chain_length pre + file_size f - sector * 2 ^ sector_bits < 2 ^ size_bits ->
  size * 2 ^ sector_bits
    < chain_length pre + file_size f - sector * 2 ^ sector_bits ->
  file_size g
    <= 2 ^ size_bits
       - (chain_length pre + file_size f - sector * 2 ^ sector_bits
          - size * 2 ^ sector_bits) ->
  let r := grub_loopbackx_read size_bits sector_bits dev sector size buf m err in
  let rest := skipn (Z.to_nat (sector * 2 ^ sector_bits - chain_length pre))
                    (file_data f) in
  Z.of_nat (length rest) =
    chain_length pre + file_size f - sector * 2 ^ sector_bits /\
  rr_ret r = GRUB_ERR_NONE /\
  rr_mem r =
    mem_write (mem_write m buf rest) (buf + Z.of_nat (length rest)) (file_data g) /\
  delivered (rr_mem r) buf (length rest + length (file_data g)) =
    rest ++ file_data g.
Proof.
  intros Hsb Hb Hfiles Hpre Hsf Hsg Hg Herr Hsec Hsize Hf1 Hf2 Hin H64 Hfit
         Hshort Hroom.
  destruct (request_bytes size_bits sector_bits sector size) as [Es Et];
    try assumption; try lia.
  assert (0 < 2 ^ sector_bits) as Hp by (apply Z.pow_pos_nonneg; lia).
  pose proof (pow2_le_64 size_bits Hb) as H2.
  set (spos := sector * 2 ^ sector_bits) in *.
  set (total := size * 2 ^ sector_bits) in *.
  assert (0 < total) as Htp by (subst total; nia).
  pose proof (chain_length_nonneg pre Hpre) as Hpn.
  pose proof Hsf as [Hdf _]. pose proof Hsg as [Hdg _].
  set (c := spos - chain_length pre) in *.
  set (n := file_size f - c).
  set (k := 2 ^ size_bits + (total - n)).
  intros r rest.
  assert (Z.of_nat (length rest) = n) as Lr
    by (subst rest n; rewrite length_drop; lia).
  assert (firstn (Z.to_nat k) (file_data g) = file_data g) as Hall
    by (apply firstn_all2; subst k n c; lia).
  assert (exists fl,
            grub_loopbackx_read size_bits sector_bits dev sector size buf m err =
            mk_result GRUB_ERR_NONE fl
              (mem_write (mem_write m buf rest) (buf + n) (file_data g)) err)
    as [fl Hr].
  { unfold grub_loopbackx_read.
    rewrite Es, Et, Hfiles, chain_walk_app.
    rewrite chain_walk_skip_prefix by (try assumption; cbn; lia).
    cbn [rd_buf rd_total rd_spos rd_mem rd_err]. fold c.
    rewrite chain_walk_inside by (try assumption; subst c; lia).
    fold n. fold rest. unfold to_size.
    rewrite wrap_negative by (subst n c; lia). fold k.
    rewrite chain_walk_start by (try assumption; subst k n c; lia).
    cbn [rd_err rd_total rd_mem rd_buf].
    destruct (decide (grub_errno err = GRUB_ERR_NONE)); [|contradiction].
    change (0 >? 0) with false. cbv iota. rewrite Hall. eexists. reflexivity. }
  subst r. rewrite Hr. cbn [rr_ret rr_mem]. rewrite Lr.
  split; [subst n c; lia|]. split; [reflexivity|]. split; [reflexivity|].
  rewrite delivered_app. f_equal.
  - rewrite delivered_write_apart by lia. apply delivered_write_same.
  - rewrite Lr. apply delivered_write_same.
Qed.

(** Two bytes asked at byte 5 of the sample device: the last 5 bytes of the
    first file and the 20 bytes of the second are stored. *)
Lemma read_inside_runs_into_next_file_witness :
  (chain_length [] < 5 * 2 ^ 0 < chain_length [] + file_size sample_file_a /\
   2 * 2 ^ 0 < chain_length [] + file_size sample_file_a - 5 * 2 ^ 0 /\
   file_size sample_file_b
     <= 2 ^ 64 - (chain_length [] + file_size sample_file_a - 5 * 2 ^ 0
                  - 2 * 2 ^ 0)) /\
  let r := grub_loopbackx_read 64 0 sample_dev 5 2 0 blank_memory no_error in
  let rest := skipn (Z.to_nat (5 * 2 ^ 0 - chain_length []))
                    (file_data sample_file_a) in
  Z.of_nat (length rest) =
    chain_length [] + file_size sample_file_a - 5 * 2 ^ 0 /\
  rr_ret r = GRUB_ERR_NONE /\
  rr_mem r =
    mem_write (mem_write blank_memory 0 rest) (0 + Z.of_nat (length rest))
              (file_data sample_file_b) /\
  delivered (rr_mem r) 0 (length rest + length (file_data sample_file_b)) =
    rest ++ file_data sample_file_b.
Proof.
  split; [repeat split; unfold chain_length; cbn; lia|].
  apply (read_inside_runs_into_next_file 64 0 sample_dev [] sample_file_a
           sample_file_b [] 5 2 0 blank_memory no_error);
    [lia | lia | reflexivity | constructor | split; reflexivity
    | split; reflexivity | cbn; lia | reflexivity | lia | lia
    | reflexivity | reflexivity | unfold chain_length; cbn; lia
    | reflexivity | reflexivity | unfold chain_length; cbn; lia
    | unfold chain_length; cbn; lia].
Defined.

(** X18: a read that is called while an error is pending returns an error
    even when all its file reads succeed (then the very error that was
    pending); the pending error is not cleared by the read. *)
Theorem read_with_pending_error (size_bits sector_bits : Z)
    (dev : grub_loopbackx) (sector size buf : Z) (m : memory)
    (err : grub_error_state) :
  grub_errno err <> GRUB_ERR_NONE ->
  Forall fault_is_error (files dev) ->
  let r := grub_loopbackx_read size_bits sector_bits dev sector size buf m err in
  rr_ret r <> GRUB_ERR_NONE /\
  rr_ret r = grub_errno (rr_err r) /\
  (Forall (fun f => file_fault f = None) (files dev) -> rr_err r = err).
Proof.
  intros He Hfaults r. subst r. unfold grub_loopbackx_read.
  match goal with |- context [chain_walk size_bits (files dev) ?s0] =>
    pose proof (chain_walk_error_stays size_bits (files dev) Hfaults s0 He) as Hs;
    pose proof (fun H => chain_walk_error_kept size_bits (files dev) H s0) as Hk;
    destruct (chain_walk size_bits (files dev) s0) as [fl s] end.
  cbn [snd rd_err] in Hs, Hk.
  destruct (decide (grub_errno (rd_err s) = GRUB_ERR_NONE)); [contradiction|].
  cbn [rr_ret rr_err]. auto.
Qed.

Lemma read_with_pending_error_witness :
  (grub_errno file_not_found <> GRUB_ERR_NONE /\
   Forall fault_is_error (files sample_dev)) /\
  let r := grub_loopbackx_read 64 0 sample_dev 7 23 0 blank_memory
             file_not_found in
  rr_ret r <> GRUB_ERR_NONE /\
  rr_ret r = grub_errno (rr_err r) /\
  (Forall (fun f => file_fault f = None) (files sample_dev) ->
   rr_err r = file_not_found).
Proof.
  assert (Forall fault_is_error (files sample_dev)) as Hf.
  { repeat constructor; intros e He; discriminate He. }
  split; [split; [discriminate|exact Hf]|].
  apply (read_with_pending_error 64 0 sample_dev 7 23 0 blank_memory
           file_not_found); [discriminate|exact Hf].
Defined.

(** ** The size of a chain beyond the range of [grub_size_t] *)

(** X19: for a device whose files all have known lengths, [open] counts the
    sectors of the sum of the lengths taken modulo [2 ^ size_bits], the
    range of [grub_size_t]: a chain longer than that is reported shorter
    than it is. *)
Theorem open_counts_modulo (size_bits sector_bits cache_bits : Z)
    (name : string) (disk : grub_disk) (st : grub_state)
    (dev : grub_loopbackx) :
  find_device name (loopback_list st) = Some dev ->
  0 <= sector_bits -> 0 <= size_bits <= 64 ->
  Forall size_known (files dev) ->
  total_sectors
    (snd (fst (grub_loopbackx_open size_bits sector_bits cache_bits name disk st)))
  = wrap size_bits
      (wrap size_bits (chain_length (files dev)) + 2 ^ sector_bits - 1)
    / 2 ^ sector_bits.
Proof.
  intros Hf Hs Hb Hk. unfold grub_loopbackx_open. rewrite Hf.
  replace 0 with (wrap size_bits 0) at 2 by (unfold wrap; apply Zmod_0_l).
  rewrite size_walk_modulo by assumption. rewrite Z.add_0_l.
  change (0 =? GRUB_DISK_SIZE_UNKNOWN) with false. cbn [negb fst snd total_sectors].
  now rewrite sector_size_pow2.
Qed.

Lemma open_counts_modulo_witness :
  (find_device "loop6" (loopback_list big_state) = Some big_dev /\
   Forall size_known (files big_dev)) /\
  total_sectors (snd (fst (grub_loopbackx_open 32 9 6 "loop6" blank_disk big_state)))
  = wrap 32 (wrap 32 (chain_length (files big_dev)) + 2 ^ 9 - 1) / 2 ^ 9.
Proof.
  assert (Forall size_known (files big_dev)) as Hk.
  { repeat constructor; unfold GRUB_FILE_SIZE_UNKNOWN; cbn; lia. }
  split; [split; [reflexivity|exact Hk]|].
  apply (open_counts_modulo 32 9 6 "loop6" blank_disk big_state big_dev);
    [reflexivity | lia | lia | exact Hk].
Defined.

(** ** The root variable and the prefix *)

Lemma char_at_cons_S (a : Ascii.ascii) (s : string) (i : nat) :
  char_at (String a s) (S i) = char_at s i.
Proof. reflexivity. Qed.

Lemma append_cons (c : Ascii.ascii) (a b : string) :
  (String c a +:+ b = String c (a +:+ b))%string.
Proof. reflexivity. Qed.

Lemma string_length_app (a b : string) :
  String.length (a +:+ b) = (String.length a + String.length b)%nat.
Proof.
  induction a as [|c a IH]; [reflexivity|].
  rewrite append_cons. cbn [String.length Nat.add]. now rewrite IH.
Qed.

Lemma string_from_app (a b : string) :
  string_from (String.length a) (a +:+ b) = b.
Proof.
  induction a as [|c a IH]; [reflexivity|].
  rewrite append_cons. cbn [String.length string_from]. exact IH.
Qed.

Lemma substring_prefix (a b : string) :
  substring 0 (String.length a) (a +:+ b) = a.
Proof.
  induction a as [|c a IH]; [now destruct b|].
  rewrite append_cons. cbn [String.length substring]. now rewrite IH.
Qed.

Lemma char_at_app (a b : string) (i : nat) :
  char_at (a +:+ b) (String.length a + i) = char_at b i.
Proof.
  induction a as [|c a IH]; [reflexivity|].
  rewrite append_cons. cbn [String.length Nat.add]. rewrite char_at_cons_S. exact IH.
Qed.

(** A string that is not empty ends with its last character. *)
Lemma last_char (r : string) (c : Ascii.ascii) :
  r <> EmptyString ->
  char_at r (String.length r - 1) = c ->
  exists s, r = s +:+ String c EmptyString.
Proof.
  induction r as [|a r IH]; intros Hne Hc; [contradiction|].
  destruct r as [|b r].
  - cbn in Hc. subst c. now exists EmptyString.
  - cbn [String.length Nat.sub] in Hc. rewrite ?Nat.sub_0_r in Hc.
    rewrite char_at_cons_S in Hc.
    destruct IH as [s Hs]; [discriminate| |].
    + cbn [String.length Nat.sub]. now rewrite ?Nat.sub_0_r.
    + exists (String a s). now rewrite append_cons, <- Hs.
Qed.

(** X20: the hook of the [root] variable takes one pair of parentheses off
    a value that is wrapped in them, and returns every other value as it
    is, the empty value and a lone parenthesis too; it returns a null
    pointer only when its allocation fails. *)
Theorem write_root_strips_parentheses (ok : bool) :
  (forall s : string,
     grub_env_write_root ok ("(" +:+ s +:+ ")") = if ok then Some s else None) /\
  (forall val : string,
     (forall s : string, val <> "(" +:+ s +:+ ")"%string) ->
     grub_env_write_root ok val = if ok then Some val else None).
Proof.
  split.
  - intros s. unfold grub_env_write_root.
    set (val := ("(" +:+ s +:+ ")")%string).
    assert (val = String "(" (s +:+ ")")) as Hv by reflexivity.
    assert (String.length val = S (S (String.length s))) as Hl.
    { rewrite Hv. cbn [String.length]. rewrite string_length_app.
      cbn [String.length]. lia. }
    assert (char_at val 0 = "("%char) as F1 by reflexivity.
    assert (char_at val (S (String.length s)) = ")"%char) as F3.
    { rewrite Hv, char_at_cons_S.
      replace (String.length s) with (String.length s + 0)%nat at 1 by lia.
      now rewrite char_at_app. }
    assert (string_from 1 val = (s +:+ ")")%string) as F4 by reflexivity.
    rewrite Hl.
    replace (S (S (String.length s)) - 1)%nat with (S (String.length s)) by lia.
    replace (S (S (String.length s)) - 2)%nat with (String.length s) by lia.
    rewrite F1, F3, F4, !Ascii.eqb_refl.
    unfold grub_strndup. now rewrite substring_prefix.
  - intros val Hval. unfold grub_env_write_root, grub_strdup.
    destruct (Ascii.eqb_spec (char_at val 0) "("%char) as [E0|E0]; [|reflexivity].
    destruct (Ascii.eqb_spec (char_at val (String.length val - 1)) ")"%char)
      as [E1|E1]; [|reflexivity].
    exfalso. destruct val as [|a r]; [discriminate E0|].
    cbn in E0. subst a. cbn [String.length Nat.sub] in E1.
    rewrite ?Nat.sub_0_r in E1.
    destruct r as [|b r]; [discriminate E1|].
    cbn [String.length] in E1. rewrite char_at_cons_S in E1.
    destruct (last_char (String b r) ")"%char) as [s Hs]; [discriminate| |].
    + cbn [String.length Nat.sub]. now rewrite ?Nat.sub_0_r.
    + apply (Hval s). change ("(" +:+ s +:+ ")")%string with (String "(" (s +:+ ")")). now rewrite <- Hs.
Qed.

Lemma write_root_strips_parentheses_witness :
  (forall s : string, "("%string <> "(" +:+ s +:+ ")"%string) /\
  grub_env_write_root true "(hd0,msdos1)" = Some "hd0,msdos1"%string /\
  grub_env_write_root true "(" = Some "("%string /\
  grub_env_write_root true "" = Some ""%string.
Proof.
  assert (forall s : string, "("%string <> "(" +:+ s +:+ ")"%string) as H1
    by (intros [|a s]; discriminate).
  assert (forall s : string, ""%string <> "(" +:+ s +:+ ")"%string) as H2
    by (intros s; discriminate).
  destruct (write_root_strips_parentheses true) as [Hs Hk].
  split; [exact H1|]. split; [exact (Hs "hd0,msdos1"%string)|].
  split; [exact (Hk "("%string H1)|exact (Hk ""%string H2)].
Defined.

Lemma string_from_add (a b : string) (k : nat) :
  string_from (String.length a + k) (a +:+ b) = string_from k b.
Proof.
  induction a as [|c a IH]; [reflexivity|].
  rewrite append_cons. cbn [String.length Nat.add string_from]. exact IH.
Qed.

(** The last [c] of a string that has none after it. *)
Lemma grub_strrchr_last (a b : string) (c : Ascii.ascii) :
  grub_strrchr b c = None ->
  grub_strrchr (a +:+ String c b) c = Some (String.length a).
Proof.
  intros Hb. induction a as [|x a IH].
  - change (EmptyString +:+ String c b)%string with (String c b).
    cbn [grub_strrchr String.length]. now rewrite Hb, Ascii.eqb_refl.
  - rewrite append_cons. cbn [grub_strrchr String.length]. now rewrite IH.
Qed.

(** What is read of a prefix that starts with a device in parentheses and
    has no closing parenthesis in its path. *)
Lemma prefix_parts (dev path : string) :
  grub_strrchr path ")" = None ->
  let grub_prefix := ("(" +:+ dev +:+ ")" +:+ path)%string in
  char_at grub_prefix 0 = "("%char /\
  grub_strrchr grub_prefix ")" = Some (S (String.length dev)) /\
  substring 0 (String.length dev) (string_from 1 grub_prefix) = dev /\
  char_at grub_prefix (S (S (String.length dev))) = char_at path 0 /\
  string_from (S (S (String.length dev))) grub_prefix = path.
Proof.
  intros Hp grub_prefix.
  assert (grub_prefix = String "(" (dev +:+ String ")" path)) as Hv by reflexivity.
  split; [reflexivity|]. split.
  { rewrite Hv. cbn [grub_strrchr]. now rewrite (grub_strrchr_last dev path ")" Hp). }
  split.
  { rewrite Hv. cbn [string_from]. apply substring_prefix. }
  split.
  { rewrite Hv, char_at_cons_S.
    replace (S (String.length dev)) with (String.length dev + 1)%nat by lia.
    now rewrite char_at_app. }
  rewrite Hv.
  change (string_from (S (S (String.length dev))) (String "(" (dev +:+ String ")" path)))
    with (string_from (S (String.length dev)) (dev +:+ String ")" path)).
  replace (S (String.length dev)) with (String.length dev + 1)%nat by lia.
  now rewrite string_from_add.
Qed.

(** X21: the device of a prefix that starts with a parenthesis is what
    stands between that parenthesis and the last closing parenthesis of the
    prefix, and the path is what follows.  When the device is complete (not
    empty, and not starting with a comma), [root] is set to it.  When the
    path is not empty, [prefix] is set to the prefix itself and the boot
    location is not asked for; when the path is empty, the boot location is
    asked for, and [prefix] is the device in parentheses followed by the
    boot path, if there is one. *)
Theorem prefix_with_device_is_kept (dev path : string)
    (fwdevice fwpath : option string) :
  lacks_drive dev = false ->
  grub_strrchr path ")" = None ->
  grub_set_prefix_and_root ("(" +:+ dev +:+ ")" +:+ path) (fwdevice, fwpath)
    all_ok =
  RegisterVariableHook "root"
  :: (if Ascii.eqb (char_at path 0) Ascii.zero then [GetBootLocation] else [])
  ++ [EnvSet "prefix"
        ("(" +:+ dev +:+ ")" +:+
         (if Ascii.eqb (char_at path 0) Ascii.zero
          then match fwpath with Some p => p | None => "" end
          else path));
      EnvSet "root" dev].
Proof.
  intros Hd Hr.
  destruct (prefix_parts dev path Hr) as (P1 & P2 & P3 & P4 & P5).
  cbv zeta in P1, P2, P3, P4, P5.
  unfold grub_set_prefix_and_root.
  rewrite P1, Ascii.eqb_refl, P2.
  cbn [ok_device ok_path ok_prefix all_ok grub_strndup grub_strdup Nat.sub].
  rewrite Nat.sub_0_r, P3, P4, P5, Hd.
  destruct (Ascii.eqb (char_at path 0) Ascii.zero); cbn [orb].
  - destruct fwdevice, fwpath; rewrite ?Hd; reflexivity.
  - reflexivity.
Qed.

(** A prefix with device and path; a prefix whose path has parentheses of
    its own, where the device runs up to the last of them; and a prefix
    without a path, which takes the boot path. *)
Lemma prefix_with_device_is_kept_witness :
  (lacks_drive "hd0,msdos1" = false /\ grub_strrchr "/boot/grub" ")" = None /\
   grub_set_prefix_and_root "(hd0,msdos1)/boot/grub" (Some "hd1"%string, None)
     all_ok =
   [RegisterVariableHook "root";
    EnvSet "prefix" "(hd0,msdos1)/boot/grub";
    EnvSet "root" "hd0,msdos1"]) /\
  (lacks_drive "hd0)/boot(1" = false /\ grub_strrchr "/grub" ")" = None /\
   grub_set_prefix_and_root "(hd0)/boot(1)/grub" (None, None) all_ok =
   [RegisterVariableHook "root";
    EnvSet "prefix" "(hd0)/boot(1)/grub";
    EnvSet "root" "hd0)/boot(1"]) /\
  (lacks_drive "hd0" = false /\ grub_strrchr "" ")" = None /\
   grub_set_prefix_and_root "(hd0)" (Some "hd1"%string, Some "/fw"%string)
     all_ok =
   [RegisterVariableHook "root"; GetBootLocation;
    EnvSet "prefix" "(hd0)/fw";
    EnvSet "root" "hd0"]).
Proof.
  split; [|split]; (split; [reflexivity|]); (split; [reflexivity|]).
  - exact (prefix_with_device_is_kept "hd0,msdos1" "/boot/grub"
             (Some "hd1"%string) None eq_refl eq_refl).
  - exact (prefix_with_device_is_kept "hd0)/boot(1" "/grub" None None
             eq_refl eq_refl).
  - exact (prefix_with_device_is_kept "hd0" "" (Some "hd1"%string)
             (Some "/fw"%string) eq_refl eq_refl).
Defined.

(** X22: a prefix that does not start with a parenthesis names no device:
    the boot location is asked for, and without a boot device neither
    variable is set.  With one, [root] is the boot device and [prefix] is
    that device in parentheses followed by the prefix, the boot path being
    used only when the prefix is empty. *)
Theorem prefix_without_device (grub_prefix : string)
    (fwdevice fwpath : option string) :
  char_at grub_prefix 0 <> "("%char ->
  grub_set_prefix_and_root grub_prefix (fwdevice, fwpath) all_ok =
  RegisterVariableHook "root" :: GetBootLocation ::
  match fwdevice with
  | Some d =>
      [EnvSet "prefix"
         ("(" +:+ d +:+ ")" +:+
          (if Ascii.eqb (char_at grub_prefix 0) Ascii.zero
           then match fwpath with Some p => p | None => "" end
           else grub_prefix));
       EnvSet "root" d]
  | None => []
  end.
Proof.
  intros Hp. unfold grub_set_prefix_and_root.
  destruct (Ascii.eqb_spec (char_at grub_prefix 0) "("%char) as [E|_];
    [contradiction|].
  cbn [ok_path ok_prefix all_ok grub_strdup string_from orb].
  destruct (Ascii.eqb (char_at grub_prefix 0) Ascii.zero), fwdevice, fwpath;
    reflexivity.
Qed.

Lemma prefix_without_device_witness :
  char_at "/boot/grub" 0 <> "("%char /\
  grub_set_prefix_and_root "/boot/grub" (Some "hd0,gpt2"%string, Some "/efi"%string)
    all_ok =
  [RegisterVariableHook "root"; GetBootLocation;
   EnvSet "prefix" "(hd0,gpt2)/boot/grub"; EnvSet "root" "hd0,gpt2"].
Proof.
  split; [discriminate|].
  apply (prefix_without_device "/boot/grub" (Some "hd0,gpt2"%string)
           (Some "/efi"%string)); discriminate.
Defined.

(** X23: a prefix whose device, the text between the opening parenthesis
    and the last closing parenthesis, is only a partition (it is empty or
    starts with a comma) gets its drive from the boot device: the part of
    the boot device before its first comma, or all of it when it has none,
    is put before the partition, and [root] and [prefix] are set with the
    result; without a boot device the partition is used as it is.  The path
    of [prefix] is the path of the prefix, or the boot path, if there is
    one, when the prefix has no path. *)
Theorem partition_gets_boot_drive (part path : string)
    (fwdevice fwpath : option string) :
  lacks_drive part = true ->
  grub_strrchr path ")" = None ->
  let device :=
    match fwdevice with
    | Some fw =>
        match grub_strchr fw "," with
        | Some comma => substring 0 comma fw
        | None => fw
        end +:+ part
    | None => part
    end in
  grub_set_prefix_and_root ("(" +:+ part +:+ ")" +:+ path) (fwdevice, fwpath)
    all_ok =
  [RegisterVariableHook "root"; GetBootLocation;
   EnvSet "prefix"
     ("(" +:+ device +:+ ")" +:+
      (if Ascii.eqb (char_at path 0) Ascii.zero
       then match fwpath with Some p => p | None => "" end
       else path));
   EnvSet "root" device].
Proof.
  intros Hd Hr device.
  destruct (prefix_parts part path Hr) as (P1 & P2 & P3 & P4 & P5).
  cbv zeta in P1, P2, P3, P4, P5.
  unfold grub_set_prefix_and_root.
  rewrite P1, Ascii.eqb_refl, P2.
  cbn [ok_device ok_path ok_prefix ok_drive ok_new_device all_ok grub_strndup
       grub_strdup Nat.sub].
  rewrite Nat.sub_0_r, P3, P4, P5, Hd. cbn [orb]. subst device.
  destruct (Ascii.eqb (char_at path 0) Ascii.zero);
    destruct fwdevice as [fw|], fwpath; rewrite ?Hd; try reflexivity;
    destruct (grub_strchr fw ","); reflexivity.
Qed.

(** A partition with a path, and a partition without one, which takes the
    boot path. *)
Lemma partition_gets_boot_drive_witness :
  (lacks_drive ",msdos2" = true /\ grub_strrchr "/grub" ")" = None /\
   grub_set_prefix_and_root "(,msdos2)/grub" (Some "hd1,msdos5"%string, None)
     all_ok =
   [RegisterVariableHook "root"; GetBootLocation;
    EnvSet "prefix" "(hd1,msdos2)/grub"; EnvSet "root" "hd1,msdos2"]) /\
  (lacks_drive ",msdos2" = true /\ grub_strrchr "" ")" = None /\
   grub_set_prefix_and_root "(,msdos2)"
     (Some "hd1,msdos5"%string, Some "/fw"%string) all_ok =
   [RegisterVariableHook "root"; GetBootLocation;
    EnvSet "prefix" "(hd1,msdos2)/fw"; EnvSet "root" "hd1,msdos2"]).
Proof.
  split; (split; [reflexivity|]); (split; [reflexivity|]).
  - exact (partition_gets_boot_drive ",msdos2" "/grub"
             (Some "hd1,msdos5"%string) None eq_refl eq_refl).
  - exact (partition_gets_boot_drive ",msdos2" ""
             (Some "hd1,msdos5"%string) (Some "/fw"%string) eq_refl eq_refl).
Defined.

(** The shape of what [grub_set_prefix_and_root] does, whatever it reads. *)
Lemma set_prefix_and_root_shape (grub_prefix : string)
    (boot : option string * option string) (ok : prefix_allocs) :
  exists (ask : bool) (device : option string) (path : string),
    grub_set_prefix_and_root grub_prefix boot ok =
    RegisterVariableHook "root"
    :: (if ask then [GetBootLocation] else [])
    ++ match device with
       | Some d =>
           (if ok_prefix ok
            then [EnvSet "prefix" ("(" +:+ d +:+ ")" +:+ path)]
            else [])
           ++ [EnvSet "root" d]
       | None => []
       end.
Proof.
  unfold grub_set_prefix_and_root.
  destruct (if Ascii.eqb (char_at grub_prefix 0) "("%char
            then match grub_strrchr grub_prefix ")"%char with
                 | Some i =>
                     (grub_strndup (ok_device ok) (string_from 1 grub_prefix) (i - 1),
                      Some (S i))
                 | None => (None, None)
                 end
            else (None, None)) as [device pptr].
  match goal with
  | |- context [let '(_, _) := ?x in _] => destruct x as [fw fp]
  end.
  eexists _, _, _. reflexivity.
Qed.

(** X24: whichever allocations fail, [prefix] is never set alone: when it is
    set, its value is a device in parentheses followed by a path, and [root]
    is set to that device; and nothing is set before the write hook of
    [root] is registered. *)
Theorem prefix_names_the_root (grub_prefix : string)
    (boot : option string * option string) (ok : prefix_allocs) :
  let events := grub_set_prefix_and_root grub_prefix boot ok in
  hd_error events = Some (RegisterVariableHook "root") /\
  forall value,
    In (EnvSet "prefix" value) events ->
    exists device path,
      value = ("(" +:+ device +:+ ")" +:+ path)%string /\
      In (EnvSet "root" device) events.
Proof.
  destruct (set_prefix_and_root_shape grub_prefix boot ok)
    as (ask & device & path & ->).
  cbv zeta. split; [reflexivity|].
  intros value Hin. destruct Hin as [Hin|Hin]; [discriminate|].
  apply in_app_or in Hin. destruct Hin as [Hin|Hin].
  { destruct ask; [destruct Hin as [Hin|[]]; discriminate|destruct Hin]. }
  destruct device as [d|]; [|destruct Hin].
  apply in_app_or in Hin. destruct Hin as [Hin|Hin].
  - destruct (ok_prefix ok); [|destruct Hin].
    destruct Hin as [Hin|[]]. injection Hin as <-.
    exists d, path. split; [reflexivity|].
    right. apply in_or_app. right. apply in_or_app. right. now left.
  - destruct Hin as [Hin|[]]. discriminate.
Qed.

Lemma prefix_names_the_root_witness :
  In (EnvSet "prefix" "(hd0)/grub")
     (grub_set_prefix_and_root "(hd0)/grub" (None, None) all_ok) /\
  exists device path,
    "(hd0)/grub"%string = ("(" +:+ device +:+ ")" +:+ path)%string /\
    In (EnvSet "root" device)
       (grub_set_prefix_and_root "(hd0)/grub" (None, None) all_ok).
Proof.
  assert (In (EnvSet "prefix" "(hd0)/grub")
            (grub_set_prefix_and_root "(hd0)/grub" (None, None) all_ok)) as H
    by (right; left; reflexivity).
  split; [exact H|].
  exact (proj2 (prefix_names_the_root "(hd0)/grub" (None, None) all_ok) _ H).
Defined.
